(** * UCP prototype: the checkout store, its REST surface, the MCP gateway
    and the MCP-first routes, embedded in Rocq.

    Sources embedded here:
    - [src/lib/ucp/checkoutStore.ts]       the in-memory store ([Map<string, Checkout>])
    - [src/app/api/ucp/checkout/...]       the REST handlers (POST, GET, PATCH, complete, cancel)
    - [mcp/ucp-checkout-mcp-http.ts]       the HTTP MCP gateway (zod schemas + five tools)
    - [mcp/ucp-checkout-mcp.ts]            the stdio MCP gateway ([toRestLines], [toUcpCheckout])
    - [src/lib/mcp-fetch-client.ts]        the fetch-only MCP client
    - [src/app/api/ucp/checkout-via-mcp]   the MCP-first routes with REST fallback

    Modelling conventions.
    - A JavaScript object has an identity.  Checkout objects live in a heap
      (a list indexed by references); the [Map] associates ids with
      references.  A function that returns an object returns its reference.
    - [nowIso()] and [randomId()] read the clock and the random generator.
      Their results are explicit arguments ([t] and [rid]) of the operation
      that calls them.
    - A JSON number is a rational ([Q]); [Number.isInteger] and [> 0] are
      computed on it.
    - [JSON.stringify] followed by [JSON.parse] is the identity on the
      structured values that cross a wire. *)

From stdpp Require Import gmap strings list fin_maps.
From Stdlib Require Import QArith DecimalString.

Local Close Scope Q_scope.
Local Open Scope string_scope.
Local Open Scope list_scope.

(** ** Data model ([checkoutStore.ts], lines 1-14) *)

Record CartLine := mkCartLine {
  productId : string;
  quantity : Q
}.

Inductive CheckoutStatus := CREATED | COMPLETED | CANCELED.

Record Checkout := mkCheckout {
  id : string;
  status : CheckoutStatus;
  lines : list CartLine;
  createdAt : string;
  updatedAt : string
}.

(** [existing.status !== "CREATED"] *)
Definition is_created (s : CheckoutStatus) : bool :=
  match s with CREATED => true | _ => false end.

Definition status_name (s : CheckoutStatus) : string :=
  match s with
  | CREATED => "CREATED"
  | COMPLETED => "COMPLETED"
  | CANCELED => "CANCELED"
  end.

Definition terminal (s : CheckoutStatus) : Prop :=
  s = COMPLETED ∨ s = CANCELED.

(** ** Process state: the object heap and the global [store] map *)

Definition ref := nat.

Record State := mkState {
  heap : list Checkout;
  store : gmap string ref
}.

Definition empty_state : State := {| heap := []; store := ∅ |}.

(** Reading the object behind a reference (what a caller or
    [NextResponse.json] sees when it looks at the returned checkout). *)
Definition deref (σ : State) (r : ref) : option Checkout := heap σ !! r.

(** An object literal allocates a new object; nothing else is written. *)
Definition new_object (o : Checkout) (h : list Checkout) : ref * list Checkout :=
  (List.length h, h ++ [o]).

(** ** The store operations ([checkoutStore.ts], lines 31-74) *)

Definition createCheckout (rid t : string) (ls : list CartLine) (σ : State)
  : ref * State :=
  let checkout :=
    {| id := rid; status := CREATED; lines := ls; createdAt := t; updatedAt := t |} in
  let '(r, h) := new_object checkout (heap σ) in
  (r, {| heap := h; store := <[rid := r]> (store σ) |}).

Definition getCheckout (k : string) (σ : State) : option ref :=
  store σ !! k.

Definition updateCheckout (t : string) (k : string) (ls : list CartLine) (σ : State)
  : option ref * State :=
  match store σ !! k with
  | None => (None, σ)
  | Some r =>
    match heap σ !! r with
    | None => (None, σ)
    | Some existing =>
      if negb (is_created (status existing)) then (Some r, σ)
      else
        let updated :=
          {| id := id existing; status := status existing; lines := ls;
             createdAt := createdAt existing; updatedAt := t |} in
        let '(r', h) := new_object updated (heap σ) in
        (Some r', {| heap := h; store := <[k := r']> (store σ) |})
    end
  end.

Definition completeCheckout (t : string) (k : string) (σ : State)
  : option ref * State :=
  match store σ !! k with
  | None => (None, σ)
  | Some r =>
    match heap σ !! r with
    | None => (None, σ)
    | Some existing =>
      if negb (is_created (status existing)) then (Some r, σ)
      else
        let updated :=
          {| id := id existing; status := COMPLETED; lines := lines existing;
             createdAt := createdAt existing; updatedAt := t |} in
        let '(r', h) := new_object updated (heap σ) in
        (Some r', {| heap := h; store := <[k := r']> (store σ) |})
    end
  end.

Definition cancelCheckout (t : string) (k : string) (σ : State)
  : option ref * State :=
  match store σ !! k with
  | None => (None, σ)
  | Some r =>
    match heap σ !! r with
    | None => (None, σ)
    | Some existing =>
      if negb (is_created (status existing)) then (Some r, σ)
      else
        let updated :=
          {| id := id existing; status := CANCELED; lines := lines existing;
             createdAt := createdAt existing; updatedAt := t |} in
        let '(r', h) := new_object updated (heap σ) in
        (Some r', {| heap := h; store := <[k := r']> (store σ) |})
    end
  end.

(** The checkout stored under an id, as a value. *)
Definition stored (σ : State) (k : string) : option Checkout :=
  store σ !! k ≫= deref σ.

(** Every key of the map points at a live object whose [id] is that key. *)
Definition store_wf (σ : State) : Prop :=
  ∀ k r, store σ !! k = Some r → ∃ c, heap σ !! r = Some c ∧ id c = k.

(** A store built by the operations alone: the operations of the module,
    with the clock readings and random draws they consume. *)
Inductive StoreOp :=
| OpCreate (rid t : string) (ls : list CartLine)
| OpGet (k : string)
| OpUpdate (t : string) (k : string) (ls : list CartLine)
| OpComplete (t : string) (k : string)
| OpCancel (t : string) (k : string).

Definition run_op (op : StoreOp) (σ : State) : option ref * State :=
  match op with
  | OpCreate rid t ls => let '(r, σ') := createCheckout rid t ls σ in (Some r, σ')
  | OpGet k => (getCheckout k σ, σ)
  | OpUpdate t k ls => updateCheckout t k ls σ
  | OpComplete t k => completeCheckout t k σ
  | OpCancel t k => cancelCheckout t k σ
  end.

Fixpoint run_ops (ops : list StoreOp) (σ : State) : State :=
  match ops with
  | [] => σ
  | op :: rest => run_ops rest (snd (run_op op σ))
  end.

(** ** The REST surface ([src/app/api/ucp/checkout/...])

    A handler turns a request and the state into a response and a state.
    The request body is what [req.json()] yields, seen through the type
    the handler casts it to, [{ lines?: CartLine[] }]. *)

Inductive JsLines :=
| LinesAbsent                       (* [body.lines] is undefined or null *)
| LinesNotArray                     (* present, [Array.isArray] is false *)
| LinesArray (ls : list CartLine).

Inductive ReqBody :=
| NotJson                           (* [req.json()] rejects *)
| JsonNull                          (* the body is [null]: [body.lines] throws *)
| JsonBody (l : JsLines).

Inductive Payload :=
| JCheckout (c : Checkout)
| JError (error : string) (hint : option string)
| JNothing.                         (* serialising a dangling reference *)

Record HttpResponse := mkResponse {
  http_status : nat;
  payload : Payload
}.

(** [res.ok] *)
Definition ok (res : HttpResponse) : bool :=
  (200 <=? http_status res)%nat && (http_status res <=? 299)%nat.

(** [NextResponse.json({ error }, { status })] *)
Definition json_error (code : nat) (msg : string) : HttpResponse :=
  {| http_status := code; payload := JError msg None |}.

(** [NextResponse.json(checkout, { status })]: the object is serialised at
    the moment the handler returns. *)
Definition json_checkout (code : nat) (σ : State) (r : ref) : HttpResponse :=
  {| http_status := code;
     payload := match deref σ r with Some c => JCheckout c | None => JNothing end |}.

(** [body.lines ?? []] *)
Definition lines_or_empty (l : JsLines) : JsLines :=
  match l with
  | LinesAbsent => LinesArray []
  | _ => l
  end.

Definition lines_required : string :=
  "lines is required and must be a non-empty array".

(** [POST /api/ucp/checkout] *)
Definition POST_checkout (rid t : string) (body : ReqBody) (σ : State)
  : HttpResponse * State :=
  match body with
  | NotJson | JsonNull => (json_error 400 "invalid json", σ)
  | JsonBody l =>
    match lines_or_empty l with
    | LinesArray ls =>
      if (List.length ls =? 0)%nat then (json_error 400 lines_required, σ)
      else
        let '(r, σ') := createCheckout rid t ls σ in
        (json_checkout 201 σ' r, σ')
    | _ => (json_error 400 lines_required, σ)
    end
  end.

(** [GET /api/ucp/checkout/[id]] *)
Definition GET_checkout (k : string) (σ : State) : HttpResponse * State :=
  match getCheckout k σ with
  | None => (json_error 404 "not found", σ)
  | Some r => (json_checkout 200 σ r, σ)
  end.

(** [PATCH /api/ucp/checkout/[id]] *)
Definition PATCH_checkout (t : string) (k : string) (body : ReqBody) (σ : State)
  : HttpResponse * State :=
  match body with
  | NotJson | JsonNull => (json_error 400 "invalid json", σ)
  | JsonBody l =>
    match lines_or_empty l with
    | LinesArray ls =>
      if (List.length ls =? 0)%nat then (json_error 400 lines_required, σ)
      else
        match updateCheckout t k ls σ with
        | (None, σ') => (json_error 404 "not found", σ')
        | (Some r, σ') => (json_checkout 200 σ' r, σ')
        end
    | _ => (json_error 400 lines_required, σ)
    end
  end.

(** [POST /api/ucp/checkout/[id]/complete] *)
Definition POST_complete (t : string) (k : string) (σ : State)
  : HttpResponse * State :=
  if decide (k = "") then (json_error 400 "missing checkout id", σ)
  else
    match completeCheckout t k σ with
    | (None, σ') =>
      let hint :=
        match getCheckout k σ' ≫= deref σ' with
        | Some existing =>
          "checkout exists but status is " +:+ status_name (status existing)
        | None => "checkout not in store (create and complete must hit the same app)"
        end in
      ({| http_status := 404; payload := JError "not found" (Some hint) |}, σ')
    | (Some r, σ') => (json_checkout 200 σ' r, σ')
    end.

(** [POST /api/ucp/checkout/[id]/cancel] *)
Definition POST_cancel (t : string) (k : string) (σ : State)
  : HttpResponse * State :=
  match cancelCheckout t k σ with
  | (None, σ') => (json_error 404 "not found", σ')
  | (Some r, σ') => (json_checkout 200 σ' r, σ')
  end.

(** The five requests of the Resource API and their dispatch. *)
Inductive ApiRequest :=
| ReqCreate (body : ReqBody)
| ReqGet (k : string)
| ReqUpdate (k : string) (body : ReqBody)
| ReqComplete (k : string)
| ReqCancel (k : string).

Definition resource_api (rid t : string) (req : ApiRequest) (σ : State)
  : HttpResponse * State :=
  match req with
  | ReqCreate body => POST_checkout rid t body σ
  | ReqGet k => GET_checkout k σ
  | ReqUpdate k body => PATCH_checkout t k body σ
  | ReqComplete k => POST_complete t k σ
  | ReqCancel k => POST_cancel t k σ
  end.

(** ** The MCP gateway: zod schemas
    ([mcp/ucp-checkout-mcp-http.ts] lines 26-57, [mcp/ucp-checkout-mcp.ts] lines 7-36;
    the two files declare the same schemas)

    A tool argument as it arrives, before validation: the member is
    missing, has the wrong JSON type, or is a value of the expected type. *)

Inductive Raw (A : Type) :=
| Missing
| WrongType
| Given (a : A).
Arguments Missing {A}.
Arguments WrongType {A}.
Arguments Given {A} a.

(** [z.string().min(1)] *)
Definition z_string_min1 (v : Raw string) : option string :=
  match v with
  | Given s => if (1 <=? String.length s)%nat then Some s else None
  | _ => None
  end.

(** [z.string().optional()] *)
Definition z_string_optional (v : Raw string) : option (option string) :=
  match v with
  | Missing => Some None
  | Given s => Some (Some s)
  | WrongType => None
  end.

(** [Number.isInteger] and [> 0] on a JSON number *)
Definition is_integer (q : Q) : bool := (Qnum q mod Z.pos (Qden q) =? 0)%Z.
Definition is_positive (q : Q) : bool := (0 <? Qnum q)%Z.

(** [z.number().int().positive()] *)
Definition z_number_int_positive (v : Raw Q) : option Q :=
  match v with
  | Given q => if is_integer q && is_positive q then Some q else None
  | _ => None
  end.

(** [z.array(elem).min(1)] *)
Definition z_array_min1 {A B : Type} (elem : A → option B) (v : Raw (list A))
  : option (list B) :=
  match v with
  | Given l =>
    match mapM elem l with
    | Some l' => if (1 <=? List.length l')%nat then Some l' else None
    | None => None
    end
  | _ => None
  end.

(** A line item as received: [raw_item_id] is the member [item.id]
    ([Missing] when [item] or [item.id] is missing). *)
Record RawLineItem := mkRawLineItem {
  raw_item_id : Raw string;
  raw_quantity : Raw Q
}.

(** [z.infer<typeof LineItem>]: [{ item: { id }, quantity }] *)
Record LineItem := mkLineItem {
  item_id : string;
  li_quantity : Q
}.

Definition LineItem_schema (li : RawLineItem) : option LineItem :=
  match z_string_min1 (raw_item_id li), z_number_int_positive (raw_quantity li) with
  | Some i, Some q => Some {| item_id := i; li_quantity := q |}
  | _, _ => None
  end.

(** [MetaShape]: [_meta.ucp.profile] is a string of length at least 1. *)
Definition MetaShape (profile : Raw string) : option string :=
  z_string_min1 profile.

Record CreateCheckoutArgs := mkCreateArgs {
  cp_profile : string;
  cp_idempotency_key : option string;
  cp_currency : option string;
  cp_line_items : list LineItem
}.

Record IdArgs := mkIdArgs {
  ip_profile : string;
  ip_id : string
}.

Record UpdateCheckoutArgs := mkUpdateArgs {
  up_profile : string;
  up_id : string;
  up_line_items : list LineItem
}.

Definition CreateCheckoutParams
    (profile idempotency_key currency : Raw string)
    (line_items : Raw (list RawLineItem)) : option CreateCheckoutArgs :=
  match MetaShape profile, z_string_optional idempotency_key,
        z_string_optional currency, z_array_min1 LineItem_schema line_items with
  | Some pr, Some ik, Some cur, Some lis =>
    Some {| cp_profile := pr; cp_idempotency_key := ik;
            cp_currency := cur; cp_line_items := lis |}
  | _, _, _, _ => None
  end.

Definition IdParams (profile k : Raw string) : option IdArgs :=
  match MetaShape profile, z_string_min1 k with
  | Some pr, Some i => Some {| ip_profile := pr; ip_id := i |}
  | _, _ => None
  end.

Definition UpdateCheckoutParams
    (profile k : Raw string) (line_items : Raw (list RawLineItem))
  : option UpdateCheckoutArgs :=
  match MetaShape profile, z_string_min1 k,
        z_array_min1 LineItem_schema line_items with
  | Some pr, Some i, Some lis =>
    Some {| up_profile := pr; up_id := i; up_line_items := lis |}
  | _, _, _ => None
  end.

(** ** The MCP gateway: helpers *)

(** [toLines] (HTTP gateway) *)
Definition toLines (line_items : list LineItem) : list CartLine :=
  map (λ li, {| productId := item_id li; quantity := li_quantity li |}) line_items.

(** [toRestLines] (stdio gateway) *)
Definition toRestLines (line_items : list LineItem) : list CartLine :=
  map (λ li, {| productId := item_id li; quantity := li_quantity li |}) line_items.

(** The checkout in the gateway's wire shape, with nested line items. *)
Record UcpCheckout := mkUcpCheckout {
  u_id : string;
  u_status : CheckoutStatus;
  u_line_items : list LineItem;
  u_createdAt : string;
  u_updatedAt : string
}.

(** [toUcpCheckout] (stdio gateway) *)
Definition toUcpCheckout (rest : Checkout) : UcpCheckout :=
  {| u_id := id rest;
     u_status := status rest;
     u_line_items :=
       map (λ l, {| item_id := productId l; li_quantity := quantity l |}) (lines rest);
     u_createdAt := createdAt rest;
     u_updatedAt := updatedAt rest |}.

(** ** The MCP gateway: the five tools

    [server.tool(name, schema, handler)] registers a handler behind a
    schema: the SDK parses the arguments of a call with the schema and
    runs the handler only on the parsed value; a call whose arguments do
    not parse is answered with an invalid-arguments error.  A handler that
    throws makes the call a tool error.

    The gateway reaches the Resource API with [fetch] against
    [UCP_BASE_URL]; [upstream_reachable] says whether that [fetch]
    resolves.  The requests a call issues are collected in a list.

    A handler splices the id into the path unescaped
    ([`/api/ucp/checkout/${p.id}/complete`]).  The model hands the
    Resource API the id itself, which is what the URL addresses when the
    id is made of letters, digits, [-] and [_] only ([url_safe], below;
    every id [randomId] draws is).  For other ids the URL may address
    another checkout or another route; statements about calls that carry
    an id are made for url-safe ids ([safe_call]). *)

Inductive Transport :=
| Delivered                 (* the request is handled and the reply is readable *)
| Unreachable               (* [fetch] rejects: nobody answers at the address *)
| Rejected (msg : string)   (* the transport answers non-2xx or with a JSON-RPC
                               error (no session, bad version); no tool runs *)
| ReplyUnreadable.          (* the tool runs, the reply body is not JSON *)

Record Network := mkNetwork {
  init_transport : Transport;              (* the [initialize] exchange *)
  init_session_header : option string;     (* [mcp-session-id] on its reply *)
  init_protocol_version : option string;   (* [result.protocolVersion] in it *)
  call_transport : Transport;              (* the [tools/call] exchange *)
  upstream_reachable : bool                (* gateway to Resource API *)
}.

Inductive ToolCall :=
| create_checkout (profile idempotency_key currency : Raw string)
                  (line_items : Raw (list RawLineItem))
| get_checkout (profile k : Raw string)
| update_checkout (profile k : Raw string) (line_items : Raw (list RawLineItem))
| complete_checkout (profile k : Raw string)
| cancel_checkout (profile k : Raw string).

Inductive ToolError :=
| FetchRejected                                        (* [fetch] threw *)
| AssertOkFailed (label : string) (code : nat) (body : Payload)
| RestFailed (message : string)                        (* thrown by [rest] *)
| ShapeError.                                          (* [rest.lines] is undefined *)

Inductive ToolOutcome (A : Type) :=
| InvalidInput                  (* the arguments do not parse; no handler runs *)
| ToolThrew (e : ToolError)
| ToolText (checkout : A).      (* [{ content: [{ type: "text", text: JSON({ checkout }) }] }] *)
Arguments InvalidInput {A}.
Arguments ToolThrew {A} e.
Arguments ToolText {A} checkout.

Definition fetch_upstream (net : Network) (rid t : string) (req : ApiRequest) (σ : State)
  : option HttpResponse * State :=
  if upstream_reachable net then
    let '(res, σ') := resource_api rid t req σ in (Some res, σ')
  else (None, σ).

(** HTTP gateway: [assertOk(res, label)] then [{ checkout: await res.json() }] *)
Definition assertOk_then_json (label : string) (fetched : option HttpResponse)
  : ToolOutcome Payload :=
  match fetched with
  | None => ToolThrew FetchRejected
  | Some res =>
    if ok res then ToolText (payload res)
    else ToolThrew (AssertOkFailed label (http_status res) (payload res))
  end.

Definition http_tool (net : Network) (rid t : string) (label : string)
    (req : ApiRequest) (σ : State)
  : ToolOutcome Payload * list ApiRequest * State :=
  let '(fetched, σ') := fetch_upstream net rid t req σ in
  (assertOk_then_json label fetched, [req], σ').

(** [mcp/ucp-checkout-mcp-http.ts], [buildMcpServer] *)
Definition gateway_http (net : Network) (rid t : string) (call : ToolCall) (σ : State)
  : ToolOutcome Payload * list ApiRequest * State :=
  match call with
  | create_checkout profile ik cur line_items =>
    match CreateCheckoutParams profile ik cur line_items with
    | None => (InvalidInput, [], σ)
    | Some p =>
      http_tool net rid t "create_checkout"
        (ReqCreate (JsonBody (LinesArray (toLines (cp_line_items p))))) σ
    end
  | get_checkout profile k =>
    match IdParams profile k with
    | None => (InvalidInput, [], σ)
    | Some p => http_tool net rid t "get_checkout" (ReqGet (ip_id p)) σ
    end
  | update_checkout profile k line_items =>
    match UpdateCheckoutParams profile k line_items with
    | None => (InvalidInput, [], σ)
    | Some p =>
      http_tool net rid t "update_checkout"
        (ReqUpdate (up_id p) (JsonBody (LinesArray (toLines (up_line_items p))))) σ
    end
  | complete_checkout profile k =>
    match IdParams profile k with
    | None => (InvalidInput, [], σ)
    | Some p => http_tool net rid t "complete_checkout" (ReqComplete (ip_id p)) σ
    end
  | cancel_checkout profile k =>
    match IdParams profile k with
    | None => (InvalidInput, [], σ)
    | Some p => http_tool net rid t "cancel_checkout" (ReqCancel (ip_id p)) σ
    end
  end.

(** [data.error ?? `HTTP ${res.status}`]: the text of the error [rest]
    throws.  The status is in it only when the body has no [error]
    member. *)
Definition rest_message (code : nat) (body : Payload) : string :=
  match body with
  | JError e _ => e
  | _ => "HTTP " +:+ NilEmpty.string_of_uint (Nat.to_uint code)
  end.

(** stdio gateway: [rest<T>(path, init)], then [toUcpCheckout] on its result *)
Definition rest (fetched : option HttpResponse) : ToolError + Payload :=
  match fetched with
  | None => inl FetchRejected
  | Some res =>
    if ok res then inr (payload res)
    else inl (RestFailed (rest_message (http_status res) (payload res)))
  end.

Definition stdio_tool (net : Network) (rid t : string) (req : ApiRequest) (σ : State)
  : ToolOutcome UcpCheckout * list ApiRequest * State :=
  let '(fetched, σ') := fetch_upstream net rid t req σ in
  (match rest fetched with
   | inl e => ToolThrew e
   | inr (JCheckout c) => ToolText (toUcpCheckout c)
   | inr _ => ToolThrew ShapeError
   end, [req], σ').

(** [mcp/ucp-checkout-mcp.ts], the five [server.tool] registrations *)
Definition gateway_stdio (net : Network) (rid t : string) (call : ToolCall) (σ : State)
  : ToolOutcome UcpCheckout * list ApiRequest * State :=
  match call with
  | create_checkout profile ik cur line_items =>
    match CreateCheckoutParams profile ik cur line_items with
    | None => (InvalidInput, [], σ)
    | Some p =>
      stdio_tool net rid t
        (ReqCreate (JsonBody (LinesArray (toRestLines (cp_line_items p))))) σ
    end
  | get_checkout profile k =>
    match IdParams profile k with
    | None => (InvalidInput, [], σ)
    | Some p => stdio_tool net rid t (ReqGet (ip_id p)) σ
    end
  | update_checkout profile k line_items =>
    match UpdateCheckoutParams profile k line_items with
    | None => (InvalidInput, [], σ)
    | Some p =>
      stdio_tool net rid t
        (ReqUpdate (up_id p) (JsonBody (LinesArray (toRestLines (up_line_items p))))) σ
    end
  | complete_checkout profile k =>
    match IdParams profile k with
    | None => (InvalidInput, [], σ)
    | Some p => stdio_tool net rid t (ReqComplete (ip_id p)) σ
    end
  | cancel_checkout profile k =>
    match IdParams profile k with
    | None => (InvalidInput, [], σ)
    | Some p => stdio_tool net rid t (ReqCancel (ip_id p)) σ
    end
  end.

(** ** The fetch-only MCP client ([src/lib/mcp-fetch-client.ts]) *)

Definition UCP_PROFILE : string := "ucp.checkout.v1".
Definition PROTOCOL_VERSION : string := "2024-11-05".

Inductive ClientError :=
| NetworkError                  (* [fetch] rejected *)
| BadReply                      (* [res.json()] rejected *)
| McpError (msg : string)       (* [!res.ok] or a JSON-RPC error member *)
| NoSessionId                   (* "MCP server did not return session id" *)
| ToolCallFailed                (* the call was answered with an error *)
| MissingCheckout.              (* "MCP tool response missing checkout" *)

(** [initSession]: one [mcpPost] of the [initialize] request, then the
    check that a session id came back.  [mcpPost] throws where [fetch]
    rejects, where [res.json()] rejects, on [!res.ok] and on a JSON-RPC
    [error] member. *)
Definition initSession (net : Network) : ClientError + (string * string) :=
  match init_transport net with
  | Unreachable => inl NetworkError
  | ReplyUnreadable => inl BadReply
  | Rejected msg => inl (McpError msg)
  | Delivered =>
    let pv := default PROTOCOL_VERSION (init_protocol_version net) in
    match init_session_header net with
    | Some sid => if decide (sid = "") then inl NoSessionId else inr (sid, pv)
    | None => inl NoSessionId
    end
  end.

(** [parseCheckoutFromToolResult], applied to what the gateway answered.
    An error answer carries no JSON text with a [checkout] member, so the
    client throws on it. *)
Definition parseCheckoutFromToolResult (o : ToolOutcome Payload)
  : ClientError + Payload :=
  match o with
  | ToolText JNothing => inl MissingCheckout
  | ToolText p => inr p
  | _ => inl ToolCallFailed
  end.

(** JSON encoding of a typed line item as a tool argument. *)
Definition to_wire (li : LineItem) : RawLineItem :=
  {| raw_item_id := Given (item_id li); raw_quantity := Given (li_quantity li) |}.

(** One [tools/call] exchange: [mcpPost] with the session headers, then
    [parseCheckoutFromToolResult] on the response.  The gateway runs the
    tool whenever the request reaches it, also when its reply is lost. *)
Definition tools_call (net : Network) (rid t : string) (call : ToolCall) (σ : State)
  : (ClientError + Payload) * State :=
  match call_transport net with
  | Unreachable => (inl NetworkError, σ)
  | Rejected msg => (inl (McpError msg), σ)
  | ReplyUnreadable =>
    let '(_, _, σ') := gateway_http net rid t call σ in (inl BadReply, σ')
  | Delivered =>
    let '(o, _, σ') := gateway_http net rid t call σ in
    (parseCheckoutFromToolResult o, σ')
  end.

(** [createCheckoutViaMcp] *)
Definition createCheckoutViaMcp (net : Network) (rid t : string)
    (ls : list CartLine) (σ : State) : (ClientError + Payload) * State :=
  match initSession net with
  | inl e => (inl e, σ)
  | inr (sessionId, protocolVersion) =>
    let lineItems :=
      map (λ l, {| item_id := productId l; li_quantity := quantity l |}) ls in
    tools_call net rid t
      (create_checkout (Given UCP_PROFILE) Missing Missing
                       (Given (map to_wire lineItems))) σ
  end.

(** [completeCheckoutViaMcp] *)
Definition completeCheckoutViaMcp (net : Network) (rid t : string)
    (k : string) (σ : State) : (ClientError + Payload) * State :=
  match initSession net with
  | inl e => (inl e, σ)
  | inr (sessionId, protocolVersion) =>
    tools_call net rid t (complete_checkout (Given UCP_PROFILE) (Given k)) σ
  end.

(** ** The MCP-first routes *)

(** [POST /api/ucp/checkout-via-mcp]: [rid1], [t1] are consumed by the
    Resource API behind the gateway, [rid2], [t2] by the fallback. *)
Definition POST_checkout_via_mcp (net : Network) (rid1 t1 rid2 t2 : string)
    (body : ReqBody) (σ : State) : HttpResponse * State :=
  match body with
  | NotJson | JsonNull => (json_error 400 "invalid json", σ)
  | JsonBody l =>
    match lines_or_empty l with
    | LinesArray ls =>
      if (List.length ls =? 0)%nat then (json_error 400 lines_required, σ)
      else
        match createCheckoutViaMcp net rid1 t1 ls σ with
        | (inr checkout, σ') => ({| http_status := 201; payload := checkout |}, σ')
        | (inl _, σ') =>
          let '(r, σ'') := createCheckout rid2 t2 ls σ' in
          (json_checkout 201 σ'' r, σ'')
        end
    | _ => (json_error 400 lines_required, σ)
    end
  end.

Definition not_found_via_mcp : string :=
  "not found. If using MCP, ensure UCP_BASE_URL points to this app (e.g. http://127.0.0.1:3000).".

(** The MCP-first complete route: [completeCheckoutViaMcp(id)], and
    [completeCheckout(id)] in the [catch]. *)
Definition POST_complete_via_mcp (net : Network) (rid t1 t2 : string)
    (k : string) (σ : State) : HttpResponse * State :=
  match completeCheckoutViaMcp net rid t1 k σ with
  | (inr checkout, σ') => ({| http_status := 200; payload := checkout |}, σ')
  | (inl _, σ') =>
    match completeCheckout t2 k σ' with
    | (None, σ'') => (json_error 404 not_found_via_mcp, σ'')
    | (Some r, σ'') => (json_checkout 200 σ'' r, σ'')
    end
  end.

(** ** Vocabulary of the statements *)

(** The request carries a non-empty array of lines. *)
Definition has_lines (body : ReqBody) : bool :=
  match body with
  | JsonBody (LinesArray (_ :: _)) => true
  | _ => false
  end.

(** A quantity that is not a positive integer. *)
Definition invalid_quantity (q : Q) : Prop :=
  ¬ (0 < q)%Q ∨ ¬ ∃ z : Z, (q == inject_Z z)%Q.

(** Malformed line items of a tool call: no list, an empty list, or a line
    without a non-empty [item.id] or without a positive integer quantity. *)
Definition blank (v : Raw string) : Prop :=
  match v with
  | Given s => s = ""
  | _ => True
  end.

Definition bad_quantity (v : Raw Q) : Prop :=
  match v with
  | Given q => invalid_quantity q
  | _ => True
  end.

Definition malformed_item (li : RawLineItem) : Prop :=
  blank (raw_item_id li) ∨ bad_quantity (raw_quantity li).

Definition malformed_line_items (v : Raw (list RawLineItem)) : Prop :=
  match v with
  | Given l => l = [] ∨ Exists malformed_item l
  | _ => True
  end.

(** The profile tag of a call, and the same call under another tag. *)
Definition profile_of (call : ToolCall) : Raw string :=
  match call with
  | create_checkout pr _ _ _ => pr
  | get_checkout pr _ => pr
  | update_checkout pr _ _ => pr
  | complete_checkout pr _ => pr
  | cancel_checkout pr _ => pr
  end.

Definition with_profile (pr : Raw string) (call : ToolCall) : ToolCall :=
  match call with
  | create_checkout _ ik cur lis => create_checkout pr ik cur lis
  | get_checkout _ k => get_checkout pr k
  | update_checkout _ k lis => update_checkout pr k lis
  | complete_checkout _ k => complete_checkout pr k
  | cancel_checkout _ k => cancel_checkout pr k
  end.

(** Lines that the gateway's [LineItem] schema accepts. *)
Definition valid_line (l : CartLine) : Prop :=
  productId l ≠ "" ∧ is_integer (quantity l) = true ∧ is_positive (quantity l) = true.

(** [lines.map((l) => ({ item: { id: l.productId }, quantity: l.quantity }))] *)
Definition to_line_items (ls : list CartLine) : list LineItem :=
  map (λ l, {| item_id := productId l; li_quantity := quantity l |}) ls.

(** A network on which every exchange succeeds. *)
Definition net_up : Network :=
  {| init_transport := Delivered;
     init_session_header := Some "3f6c1c0e-session";
     init_protocol_version := Some "2024-11-05";
     call_transport := Delivered;
     upstream_reachable := true |}.

(** A network on which nobody answers at the gateway's address. *)
Definition net_down : Network :=
  {| init_transport := Unreachable;
     init_session_header := None;
     init_protocol_version := None;
     call_transport := Unreachable;
     upstream_reachable := true |}.

Definition zero_beans : CartLine := {| productId := "agentic-coffee-beans"; quantity := 0%Q |}.
Definition half_mug : CartLine := {| productId := "autonomous-mug"; quantity := (1 # 2)%Q |}.
Definition minus_beans : CartLine := {| productId := "agentic-coffee-beans"; quantity := (-3)%Q |}.

(** [replaces σ σ' k r' c']: the step from [σ] to [σ'] allocated exactly one
    object [c'], at the new reference [r'], and pointed key [k] at it. *)
Definition replaces (σ σ' : State) (k : string) (r' : ref) (c' : Checkout) : Prop :=
  r' = List.length (heap σ) ∧
  heap σ' = heap σ ++ [c'] ∧
  store σ' = <[k := r']> (store σ).

(** ** Concrete states used by the examples *)

Definition two_beans : CartLine := {| productId := "agentic-coffee-beans"; quantity := 2%Q |}.
Definition one_mug : CartLine := {| productId := "autonomous-mug"; quantity := 1%Q |}.

Definition st_created : State :=
  run_ops [OpCreate "co_8a3f" "2026-01-01T10:00:00.000Z" [two_beans]] empty_state.

Definition st_completed : State :=
  run_ops [OpComplete "2026-01-01T10:05:00.000Z" "co_8a3f"] st_created.

Definition completed_checkout : Checkout :=
  {| id := "co_8a3f"; status := COMPLETED; lines := [two_beans];
     createdAt := "2026-01-01T10:00:00.000Z";
     updatedAt := "2026-01-01T10:05:00.000Z" |}.

Definition created_checkout : Checkout :=
  {| id := "co_8a3f"; status := CREATED; lines := [two_beans];
     createdAt := "2026-01-01T10:00:00.000Z";
     updatedAt := "2026-01-01T10:00:00.000Z" |}.

(** ** Vocabulary of the further statements *)

(** The id an operation addresses. *)
Definition op_key (op : StoreOp) : string :=
  match op with
  | OpCreate rid _ _ => rid
  | OpGet k => k
  | OpUpdate _ k _ => k
  | OpComplete _ k => k
  | OpCancel _ k => k
  end.

(** [op] is a creation whose drawn id is [k]. *)
Definition creates_on (k : string) (op : StoreOp) : Prop :=
  match op with
  | OpCreate rid _ _ => rid = k
  | _ => False
  end.

(** The common shape of the three mutators: look the id up, return the
    stored object when it is not CREATED, otherwise store a modified copy.
    Used to state what the three share; each mutator is shown equal to
    an instance. *)
Definition replace_if_created (f : Checkout → Checkout) (k : string) (σ : State)
  : option ref * State :=
  match store σ !! k with
  | None => (None, σ)
  | Some r =>
    match heap σ !! r with
    | None => (None, σ)
    | Some existing =>
      if negb (is_created (status existing)) then (Some r, σ)
      else
        let '(r', h) := new_object (f existing) (heap σ) in
        (Some r', {| heap := h; store := <[k := r']> (store σ) |})
    end
  end.

(** How the checkout under one id may differ between two moments: same id,
    same createdAt, and no change at all unless it was CREATED. *)
Definition evolves (c c' : Checkout) : Prop :=
  id c' = id c ∧ createdAt c' = createdAt c ∧ (status c = CREATED ∨ c' = c).

(** A sequence of requests to the Resource API, each with the random id
    and the clock reading its handler may consume. *)
Record ApiCall := mkApiCall {
  call_rid : string;
  call_now : string;
  call_req : ApiRequest
}.

Fixpoint run_api (calls : list ApiCall) (σ : State) : State :=
  match calls with
  | [] => σ
  | c :: rest =>
    run_api rest (snd (resource_api (call_rid c) (call_now c) (call_req c) σ))
  end.

Definition lines_never_empty (σ : State) : Prop :=
  Forall (λ c, lines c ≠ []) (heap σ).

(** Requests as the gateway's schemas let them through. *)
Definition body_wellformed (b : ReqBody) : Prop :=
  match b with
  | JsonBody (LinesArray ls) => ls ≠ [] ∧ Forall valid_line ls
  | _ => False
  end.

Definition request_wellformed (req : ApiRequest) : Prop :=
  match req with
  | ReqCreate b => body_wellformed b
  | ReqUpdate k b => k ≠ "" ∧ body_wellformed b
  | ReqGet k | ReqComplete k | ReqCancel k => k ≠ ""
  end.

(** The stdio gateway's answer that corresponds to an HTTP gateway's.
    Where [assertOk] throws with the label, the status and the body,
    [rest] throws with the body's [error] text alone. *)
Definition translated (o : ToolOutcome Payload) : ToolOutcome UcpCheckout :=
  match o with
  | InvalidInput => InvalidInput
  | ToolThrew FetchRejected => ToolThrew FetchRejected
  | ToolThrew (AssertOkFailed _ code body) =>
    ToolThrew (RestFailed (rest_message code body))
  | ToolThrew e => ToolThrew e
  | ToolText (JCheckout c) => ToolText (toUcpCheckout c)
  | ToolText _ => ToolThrew ShapeError
  end.

(** Ids that a URL path carries unchanged: letters, digits, [-] and [_]. *)
Definition url_safe_char (a : Ascii.ascii) : bool :=
  let n := Ascii.nat_of_ascii a in
  ((48 <=? n) && (n <=? 57) || (65 <=? n) && (n <=? 90) ||
   (97 <=? n) && (n <=? 122) || (n =? 45) || (n =? 95))%nat.

Fixpoint url_safe (s : string) : bool :=
  match s with
  | EmptyString => true
  | String a rest => url_safe_char a && url_safe rest
  end.

(** The id a tool call carries, when it carries a string. *)
Definition call_key (call : ToolCall) : option string :=
  match call with
  | create_checkout _ _ _ _ => None
  | get_checkout _ k | update_checkout _ k _
  | complete_checkout _ k | cancel_checkout _ k =>
    match k with Given s => Some s | _ => None end
  end.

(** The id a request addresses. *)
Definition request_key (req : ApiRequest) : option string :=
  match req with
  | ReqCreate _ => None
  | ReqGet k | ReqUpdate k _ | ReqComplete k | ReqCancel k => Some k
  end.

(** A call whose id, if it has one, is url-safe. *)
Definition safe_call (call : ToolCall) : Prop :=
  ∀ k, call_key call = Some k → url_safe k = true.


(** The shape of every answer: an error that changed nothing, or a
    checkout. *)
Definition error_answer (res : HttpResponse) : Prop :=
  ∃ e h, payload res = JError e h ∧
         (http_status res = 400%nat ∨ http_status res = 404%nat).

Definition checkout_answer (σ σ' : State) (res : HttpResponse) : Prop :=
  (http_status res = 200%nat ∨ http_status res = 201%nat) ∧
  ((∃ c, payload res = JCheckout c ∧ (store_wf σ → stored σ' (id c) = Some c)) ∨
   (payload res = JNothing ∧ σ' = σ ∧ ¬ store_wf σ)).

(** The request a tool call stands for, with the label its handler gives
    [assertOk], when the arguments pass the tool's schema. *)
Definition tool_request (call : ToolCall) : option (string * ApiRequest) :=
  match call with
  | create_checkout profile ik cur line_items =>
    p ← CreateCheckoutParams profile ik cur line_items;
    Some ("create_checkout",
          ReqCreate (JsonBody (LinesArray (toLines (cp_line_items p)))))
  | get_checkout profile k =>
    p ← IdParams profile k; Some ("get_checkout", ReqGet (ip_id p))
  | update_checkout profile k line_items =>
    p ← UpdateCheckoutParams profile k line_items;
    Some ("update_checkout",
          ReqUpdate (up_id p) (JsonBody (LinesArray (toLines (up_line_items p)))))
  | complete_checkout profile k =>
    p ← IdParams profile k; Some ("complete_checkout", ReqComplete (ip_id p))
  | cancel_checkout profile k =>
    p ← IdParams profile k; Some ("cancel_checkout", ReqCancel (ip_id p))
  end.

(** The checkout [completeCheckout] stores for a CREATED checkout [c] when
    the clock reads [t]. *)
Definition completed_at (t : string) (c : Checkout) : Checkout :=
  {| id := id c; status := COMPLETED; lines := lines c;
     createdAt := createdAt c; updatedAt := t |}.

(** The checkout [createCheckout] stores for the draw [rid] at time [t]. *)
Definition created_at (rid t : string) (ls : list CartLine) : Checkout :=
  {| id := rid; status := CREATED; lines := ls; createdAt := t; updatedAt := t |}.

(** ** The pages that drive the API ([src/app/tv/page.tsx], the shop and
    agent pages)

    Of a page handler the model keeps the requests it makes and the two
    pieces of component state it sets, [checkout] and [error]; the log
    lines and the busy flag are left out.  The server answers every
    request of the page. *)






(** The shop page's cart, a [Record<string, number>] whose keys are
    product ids: an association list in the order the keys were first
    set, which is the order [Object.entries] lists such keys in.  The
    numbers in it are counts.

    [addToCart]: [{ ...prev, [productId]: (prev[productId] ?? 0) + 1 }] *)
Fixpoint addToCart (pid : string) (cart : list (string * nat))
  : list (string * nat) :=
  match cart with
  | [] => [(pid, 1%nat)]
  | (k, q) :: rest =>
    if decide (k = pid) then (k, (q + 1)%nat) :: rest
    else (k, q) :: addToCart pid rest
  end.

(** The page's [lines]:
    [Object.entries(cart).filter(([, qty]) => qty > 0).map(...)] *)
Definition cart_lines (cart : list (string * nat)) : list CartLine :=
  map (λ e, {| productId := fst e; quantity := inject_Z (Z.of_nat (snd e)) |})
      (filter (λ e, (0 < snd e)%nat) cart).

(** The cart after the "Add" button was pressed for each of [adds], in
    order, starting from the empty cart. *)
Definition cart_after (adds : list string) : list (string * nat) :=
  foldl (λ cart pid, addToCart pid cart) [] adds.

(** How many times [pid] occurs in [adds]. *)
Definition times_added (pid : string) (adds : list string) : nat :=
  List.length (filter (λ x, x = pid) adds).

(** ** The product catalog ([src/lib/catalog/products.ts]) *)

Module Catalog.

Inductive ProductCategory := coffee | merchandise | other.

Inductive MerchantId := demo_merchant | beans_r_us.

#[global] Instance ProductCategory_eq_dec : EqDecision ProductCategory.
Proof. solve_decision. Defined.

#[global] Instance MerchantId_eq_dec : EqDecision MerchantId.
Proof. solve_decision. Defined.

Record Product := mkProduct {
  id : string;
  name : string;
  priceCents : nat;
  category : ProductCategory;
  description : option string;
  unit : option string;
  image : option string;
  merchantId : option MerchantId
}.

Definition defaultProductImage : string :=
  "https://images.unsplash.com/photo-1559056199-641a0ac8b55e?w=200&h=200&fit=crop".
Definition beansRUsImage1 : string :=
  "https://images.unsplash.com/photo-1447933601403-0c6688de566e?w=200&h=200&fit=crop".
Definition beansRUsImage2 : string :=
  "https://images.unsplash.com/photo-1514432324607-a09d9b4aefdd?w=200&h=200&fit=crop".
Definition beansRUsImage4 : string :=
  "https://images.unsplash.com/photo-1509042239860-f550ce710b93?w=200&h=200&fit=crop".
Definition mugImage : string :=
  "https://images.unsplash.com/photo-1514228742587-6b1558fcca3d?w=200&h=200&fit=crop".

Definition catalog : list Product :=
  [ mkProduct "agentic-coffee-beans" "Agentic Coffee Beans" 1800 coffee
      (Some "Medium roast, single-origin") (Some "12oz bag")
      (Some defaultProductImage) None;
    mkProduct "decaf-coffee-beans" "Decaf Coffee Beans" 1600 coffee
      (Some "Swiss water decaf, medium roast") (Some "12oz bag")
      (Some defaultProductImage) None;
    mkProduct "dark-roast-coffee" "Dark Roast Coffee Beans" 1900 coffee
      (Some "Full-bodied dark roast") (Some "12oz bag")
      (Some defaultProductImage) None;
    mkProduct "single-origin-ethiopian" "Single Origin Ethiopian" 2200 coffee
      (Some "Light roast, fruity and floral") (Some "12oz bag")
      (Some defaultProductImage) None;
    mkProduct "espresso-blend" "Espresso Blend" 2000 coffee
      (Some "House blend for espresso") (Some "12oz bag")
      (Some defaultProductImage) None;
    mkProduct "beans-r-us-house-blend" "House Blend" 1400 coffee
      (Some "Smooth everyday roast") (Some "12oz bag")
      (Some beansRUsImage1) (Some beans_r_us);
    mkProduct "beans-r-us-colombian" "Colombian" 1700 coffee
      (Some "Single origin, medium roast") (Some "12oz bag")
      (Some beansRUsImage2) (Some beans_r_us);
    mkProduct "beans-r-us-decaf" "Decaf" 1500 coffee
      (Some "Water process decaf") (Some "12oz bag")
      (Some beansRUsImage4) (Some beans_r_us);
    mkProduct "beans-r-us-cold-brew" "Cold Brew Blend" 1900 coffee
      (Some "Coarse grind for cold brew") (Some "12oz bag")
      (Some beansRUsImage4) (Some beans_r_us);
    mkProduct "autonomous-mug" "Autonomous Mug" 2400 merchandise
      (Some "Double-wall insulated") None
      (Some mugImage) None ].

(** [p.merchantId ?? "demo-merchant"] *)
Definition merchant_of (p : Product) : MerchantId :=
  default demo_merchant (merchantId p).

Definition getScoJoProducts : list Product :=
  filter (λ p, merchant_of p = demo_merchant) catalog.

Definition getCoffeeProducts : list Product :=
  filter (λ p, category p = coffee ∧ merchant_of p = demo_merchant) catalog.

Definition getProductsByMerchant (m : MerchantId) : list Product :=
  filter (λ p, category p = coffee ∧ merchant_of p = m) catalog.

Definition getProductById (i : string) : option Product :=
  List.find (λ p, bool_decide (id p = i)) catalog.

Definition getProductNames : list string := map name catalog.

End Catalog.

(** * Theorems *)

(** ** The heap only grows *)

Lemma new_object_lookup (o : Checkout) (h : list Checkout) : (h ++ [o]) !! List.length h = Some o.
Proof. induction h as [|x h IH]; [reflexivity | exact IH]. Qed.

Lemma new_object_keeps o (h : list Checkout) r c :
  h !! r = Some c → (h ++ [o]) !! r = Some c.
Proof. intros H. by apply lookup_app_l_Some. Qed.

Lemma createCheckout_heap rid t ls σ :
  prefix (heap σ) (heap (snd (createCheckout rid t ls σ))).
Proof. by apply prefix_app_r. Qed.

Lemma updateCheckout_heap t k ls σ :
  prefix (heap σ) (heap (snd (updateCheckout t k ls σ))).
Proof.
  unfold updateCheckout.
  destruct (store σ !! k) as [r|]; [|done].
  destruct (heap σ !! r) as [c|]; [|done].
  destruct (is_created (status c)); simpl; [by apply prefix_app_r | done].
Qed.

Lemma completeCheckout_heap t k σ :
  prefix (heap σ) (heap (snd (completeCheckout t k σ))).
Proof.
  unfold completeCheckout.
  destruct (store σ !! k) as [r|]; [|done].
  destruct (heap σ !! r) as [c|]; [|done].
  destruct (is_created (status c)); simpl; [by apply prefix_app_r | done].
Qed.

Lemma cancelCheckout_heap t k σ :
  prefix (heap σ) (heap (snd (cancelCheckout t k σ))).
Proof.
  unfold cancelCheckout.
  destruct (store σ !! k) as [r|]; [|done].
  destruct (heap σ !! r) as [c|]; [|done].
  destruct (is_created (status c)); simpl; [by apply prefix_app_r | done].
Qed.

Lemma run_op_heap op σ : prefix (heap σ) (heap (snd (run_op op σ))).
Proof.
  destruct op; simpl.
  - apply (createCheckout_heap rid t ls σ).
  - done.
  - apply updateCheckout_heap.
  - apply completeCheckout_heap.
  - apply cancelCheckout_heap.
Qed.

Lemma run_ops_heap ops : ∀ σ, prefix (heap σ) (heap (run_ops ops σ)).
Proof.
  induction ops as [|op ops IH]; intros σ; simpl; [done|].
  etrans; [apply run_op_heap | apply IH].
Qed.

Lemma prefix_deref (σ σ' : State) r c :
  prefix (heap σ) (heap σ') → deref σ r = Some c → deref σ' r = Some c.
Proof. unfold deref. intros Hp H. by eapply prefix_lookup_Some. Qed.

(** ** The key of an entry is the [id] of its object *)

Lemma store_wf_empty : store_wf empty_state.
Proof. intros k r H. simpl in H. by rewrite lookup_empty in H. Qed.

Lemma store_wf_insert σ k c :
  store_wf σ → id c = k →
  store_wf {| heap := heap σ ++ [c]; store := <[k := List.length (heap σ)]> (store σ) |}.
Proof.
  intros Hwf Hid k' r'. simpl. rewrite lookup_insert.
  case_decide as Hk.
  - intros [= <-]. subst k'. exists c. split; [apply new_object_lookup | done].
  - intros Hr. destruct (Hwf _ _ Hr) as (c' & Hc' & Hid').
    exists c'. split; [by apply new_object_keeps | done].
Qed.

Lemma createCheckout_wf rid t ls σ :
  store_wf σ → store_wf (snd (createCheckout rid t ls σ)).
Proof. intros Hwf. by apply store_wf_insert. Qed.

Ltac wf_mutator Hwf k :=
  match goal with
  | |- store_wf (snd (match store ?s !! k with _ => _ end)) =>
    let r := fresh "r" in let c := fresh "c" in
    let Hr := fresh "Hr" in let Hc := fresh "Hc" in
    destruct (store s !! k) as [r|] eqn:Hr; [|exact Hwf];
    destruct (heap s !! r) as [c|] eqn:Hc; [|exact Hwf];
    destruct (is_created (status c)); simpl; [|exact Hwf];
    apply store_wf_insert; [exact Hwf|]; simpl;
    destruct (Hwf _ _ Hr) as (? & ? & ?); congruence
  end.

Lemma updateCheckout_wf t k ls σ :
  store_wf σ → store_wf (snd (updateCheckout t k ls σ)).
Proof. intros Hwf. unfold updateCheckout. wf_mutator Hwf k. Qed.

Lemma completeCheckout_wf t k σ :
  store_wf σ → store_wf (snd (completeCheckout t k σ)).
Proof. intros Hwf. unfold completeCheckout. wf_mutator Hwf k. Qed.

Lemma cancelCheckout_wf t k σ :
  store_wf σ → store_wf (snd (cancelCheckout t k σ)).
Proof. intros Hwf. unfold cancelCheckout. wf_mutator Hwf k. Qed.

Lemma run_op_wf op σ : store_wf σ → store_wf (snd (run_op op σ)).
Proof.
  intros Hwf. destruct op; simpl.
  - apply (createCheckout_wf rid t ls σ Hwf).
  - done.
  - by apply updateCheckout_wf.
  - by apply completeCheckout_wf.
  - by apply cancelCheckout_wf.
Qed.

Lemma run_ops_wf ops : ∀ σ, store_wf σ → store_wf (run_ops ops σ).
Proof.
  induction ops as [|op ops IH]; intros σ Hwf; simpl; [done|].
  apply IH. by apply run_op_wf.
Qed.

(** Every state reached from the empty store is well formed. *)
Lemma reachable_wf ops : store_wf (run_ops ops empty_state).
Proof. apply run_ops_wf, store_wf_empty. Qed.

(** ** Terminal checkouts: mutations are no-ops *)

Lemma terminal_not_created s : terminal s → is_created s = false.
Proof. by intros [-> | ->]. Qed.

Lemma updateCheckout_terminal t k ls σ r c :
  store σ !! k = Some r → heap σ !! r = Some c → terminal (status c) →
  updateCheckout t k ls σ = (Some r, σ).
Proof.
  intros Hr Hc Ht. unfold updateCheckout.
  by rewrite Hr, Hc, (terminal_not_created _ Ht).
Qed.

Lemma completeCheckout_terminal t k σ r c :
  store σ !! k = Some r → heap σ !! r = Some c → terminal (status c) →
  completeCheckout t k σ = (Some r, σ).
Proof.
  intros Hr Hc Ht. unfold completeCheckout.
  by rewrite Hr, Hc, (terminal_not_created _ Ht).
Qed.

Lemma cancelCheckout_terminal t k σ r c :
  store σ !! k = Some r → heap σ !! r = Some c → terminal (status c) →
  cancelCheckout t k σ = (Some r, σ).
Proof.
  intros Hr Hc Ht. unfold cancelCheckout.
  by rewrite Hr, Hc, (terminal_not_created _ Ht).
Qed.

(** C1. For a checkout stored with a terminal status (COMPLETED or
    CANCELED) and any line list, [updateCheckout], [completeCheckout] and
    [cancelCheckout] each return the stored object itself (hence the same
    status, lines and updatedAt: no new timestamp is taken) and leave the
    whole state, heap and map, as it was.  In particular completing again
    under the [id] of the returned checkout gives the same result. *)
Theorem terminal_mutations_are_noops
    (σ : State) (k : string) (r : ref) (c : Checkout)
    (t t' : string) (ls : list CartLine) :
  store σ !! k = Some r → deref σ r = Some c → terminal (status c) →
  updateCheckout t k ls σ = (Some r, σ) ∧
  completeCheckout t k σ = (Some r, σ) ∧
  cancelCheckout t k σ = (Some r, σ) ∧
  stored σ k = Some c ∧
  (store_wf σ →
   ∃ r1 σ1 c1,
      completeCheckout t k σ = (Some r1, σ1) ∧ deref σ1 r1 = Some c1 ∧
      completeCheckout t' (id c1) σ1 = completeCheckout t k σ).
Proof.
  intros Hr Hc Ht. unfold deref in Hc.
  pose proof (completeCheckout_terminal t k σ r c Hr Hc Ht) as Hcomp.
  repeat apply conj.
  - by eapply updateCheckout_terminal.
  - done.
  - by eapply cancelCheckout_terminal.
  - unfold stored. by rewrite Hr.
  - intros Hwf. exists r, σ, c. repeat split; [done..|].
    destruct (Hwf _ _ Hr) as (c' & Hc' & Hid).
    assert (c' = c) as -> by congruence. rewrite Hid, Hcomp.
    by eapply completeCheckout_terminal.
Qed.

Lemma st_created_wf : store_wf st_created.
Proof. apply reachable_wf. Qed.

Lemma st_completed_wf : store_wf st_completed.
Proof. apply run_ops_wf, st_created_wf. Qed.

Lemma terminal_mutations_are_noops_witness :
  updateCheckout "2026-01-01T11:00:00.000Z" "co_8a3f" [one_mug] st_completed
    = (Some 1, st_completed) ∧
  completeCheckout "2026-01-01T11:00:00.000Z" "co_8a3f" st_completed
    = (Some 1, st_completed) ∧
  cancelCheckout "2026-01-01T11:00:00.000Z" "co_8a3f" st_completed
    = (Some 1, st_completed) ∧
  stored st_completed "co_8a3f" = Some completed_checkout ∧
  completeCheckout "2026-01-01T12:00:00.000Z" (id completed_checkout) st_completed
    = completeCheckout "2026-01-01T11:00:00.000Z" "co_8a3f" st_completed.
Proof.
  pose proof (terminal_mutations_are_noops st_completed "co_8a3f" 1
                completed_checkout "2026-01-01T11:00:00.000Z"
                "2026-01-01T12:00:00.000Z" [one_mug]) as H.
  destruct H as (Hu & Hc & Hx & Hs & Hidem).
  - vm_compute. reflexivity.
  - vm_compute. reflexivity.
  - left. reflexivity.
  - destruct (Hidem st_completed_wf) as (r1 & σ1 & c1 & H1 & H2 & H3).
    rewrite Hc in H1. injection H1 as <- <-.
    assert (c1 = completed_checkout) as ->.
    { vm_compute in H2. by injection H2. }
    exact (conj Hu (conj Hc (conj Hx (conj Hs H3)))).
Defined.

(** ** Unknown ids *)

(** C5. For an id that is not in the store, [getCheckout],
    [updateCheckout], [completeCheckout] and [cancelCheckout] each return
    the absent value ([null], here [None]) as an ordinary result, and the
    state is left as it was. *)
Theorem unknown_id_returns_null
    (σ : State) (k : string) (t : string) (ls : list CartLine) :
  store σ !! k = None →
  getCheckout k σ = None ∧
  updateCheckout t k ls σ = (None, σ) ∧
  completeCheckout t k σ = (None, σ) ∧
  cancelCheckout t k σ = (None, σ).
Proof.
  intros Hk.
  unfold getCheckout, updateCheckout, completeCheckout, cancelCheckout.
  by rewrite Hk.
Qed.

Lemma unknown_id_returns_null_witness :
  store st_completed !! "co_ffff" = None ∧
  getCheckout "co_ffff" st_completed = None ∧
  updateCheckout "2026-01-01T11:00:00.000Z" "co_ffff" [one_mug] st_completed
    = (None, st_completed) ∧
  completeCheckout "2026-01-01T11:00:00.000Z" "co_ffff" st_completed
    = (None, st_completed) ∧
  cancelCheckout "2026-01-01T11:00:00.000Z" "co_ffff" st_completed
    = (None, st_completed).
Proof.
  assert (store st_completed !! "co_ffff" = None) as Hk
    by (vm_compute; reflexivity).
  split; [exact Hk|].
  exact (unknown_id_returns_null st_completed "co_ffff"
           "2026-01-01T11:00:00.000Z" [one_mug] Hk).
Defined.

(** ** Successful mutations: what changes and what does not *)

Lemma updateCheckout_created t k ls σ r c :
  store σ !! k = Some r → heap σ !! r = Some c → status c = CREATED →
  updateCheckout t k ls σ =
    (Some (List.length (heap σ)),
     {| heap := heap σ ++ [ {| id := id c; status := status c; lines := ls;
                               createdAt := createdAt c; updatedAt := t |} ];
        store := <[k := List.length (heap σ)]> (store σ) |}).
Proof.
  intros Hr Hc Hs. unfold updateCheckout. rewrite Hr, Hc, Hs. reflexivity.
Qed.

Lemma completeCheckout_created t k σ r c :
  store σ !! k = Some r → heap σ !! r = Some c → status c = CREATED →
  completeCheckout t k σ =
    (Some (List.length (heap σ)),
     {| heap := heap σ ++ [ {| id := id c; status := COMPLETED; lines := lines c;
                               createdAt := createdAt c; updatedAt := t |} ];
        store := <[k := List.length (heap σ)]> (store σ) |}).
Proof.
  intros Hr Hc Hs. unfold completeCheckout. rewrite Hr, Hc, Hs. reflexivity.
Qed.

Lemma cancelCheckout_created t k σ r c :
  store σ !! k = Some r → heap σ !! r = Some c → status c = CREATED →
  cancelCheckout t k σ =
    (Some (List.length (heap σ)),
     {| heap := heap σ ++ [ {| id := id c; status := CANCELED; lines := lines c;
                               createdAt := createdAt c; updatedAt := t |} ];
        store := <[k := List.length (heap σ)]> (store σ) |}).
Proof.
  intros Hr Hc Hs. unfold cancelCheckout. rewrite Hr, Hc, Hs. reflexivity.
Qed.

Lemma replaces_intro σ k c' :
  replaces σ {| heap := heap σ ++ [c']; store := <[k := List.length (heap σ)]> (store σ) |}
           k (List.length (heap σ)) c'.
Proof. by repeat split. Qed.

Lemma replaces_deref σ σ' k r' c' : replaces σ σ' k r' c' → deref σ' r' = Some c'.
Proof. intros (-> & Hh & _). unfold deref. rewrite Hh. apply new_object_lookup. Qed.

Lemma replaces_stored σ σ' k r' c' : replaces σ σ' k r' c' → stored σ' k = Some c'.
Proof.
  intros H. pose proof (replaces_deref _ _ _ _ _ H) as Hd.
  destruct H as (_ & _ & Hs). unfold stored. rewrite Hs, lookup_insert_eq. exact Hd.
Qed.

Lemma replaces_other_keys σ σ' k r' c' k' :
  replaces σ σ' k r' c' → k' ≠ k → store σ' !! k' = store σ !! k'.
Proof. intros (_ & _ & Hs) Hne. rewrite Hs. by apply lookup_insert_ne. Qed.

Lemma replaces_old_objects σ σ' k r' c' r c :
  replaces σ σ' k r' c' → deref σ r = Some c → deref σ' r = Some c.
Proof. intros (_ & Hh & _) Hd. unfold deref in *. rewrite Hh. by apply new_object_keeps. Qed.

(** C10. A successful mutation changes only the fields it targets.
    [updateCheckout] on a CREATED checkout yields a checkout with the new
    lines and the new updatedAt and the old id, status and createdAt;
    [completeCheckout] and [cancelCheckout] on a CREATED checkout yield a
    checkout with the new status and the new updatedAt and the old id,
    lines and createdAt.  In each case the result is a newly allocated
    object stored under the same key, and no other key or object changes. *)
Theorem successful_mutation_frame
    (σ : State) (k : string) (r : ref) (c : Checkout)
    (t : string) (ls : list CartLine) :
  store σ !! k = Some r → deref σ r = Some c → status c = CREATED →
  (∃ r' σ' c', updateCheckout t k ls σ = (Some r', σ') ∧ replaces σ σ' k r' c' ∧
     lines c' = ls ∧ updatedAt c' = t ∧
     id c' = id c ∧ status c' = status c ∧ createdAt c' = createdAt c) ∧
  (∃ r' σ' c', completeCheckout t k σ = (Some r', σ') ∧ replaces σ σ' k r' c' ∧
     status c' = COMPLETED ∧ updatedAt c' = t ∧
     id c' = id c ∧ lines c' = lines c ∧ createdAt c' = createdAt c) ∧
  (∃ r' σ' c', cancelCheckout t k σ = (Some r', σ') ∧ replaces σ σ' k r' c' ∧
     status c' = CANCELED ∧ updatedAt c' = t ∧
     id c' = id c ∧ lines c' = lines c ∧ createdAt c' = createdAt c).
Proof.
  intros Hr Hc Hs. unfold deref in Hc. repeat apply conj.
  - eexists _, _, _. split; [by eapply updateCheckout_created|].
    split; [apply replaces_intro | by simpl].
  - eexists _, _, _. split; [by eapply completeCheckout_created|].
    split; [apply replaces_intro | by simpl].
  - eexists _, _, _. split; [by eapply cancelCheckout_created|].
    split; [apply replaces_intro | by simpl].
Qed.

Lemma successful_mutation_frame_witness :
  (∃ r' σ' c',
     updateCheckout "2026-01-01T10:01:00.000Z" "co_8a3f" [one_mug] st_created
       = (Some r', σ') ∧
     replaces st_created σ' "co_8a3f" r' c' ∧
     lines c' = [one_mug] ∧ updatedAt c' = "2026-01-01T10:01:00.000Z" ∧
     id c' = "co_8a3f" ∧ status c' = CREATED ∧
     createdAt c' = "2026-01-01T10:00:00.000Z") ∧
  (∃ r' σ' c',
     completeCheckout "2026-01-01T10:01:00.000Z" "co_8a3f" st_created
       = (Some r', σ') ∧
     replaces st_created σ' "co_8a3f" r' c' ∧
     status c' = COMPLETED ∧ lines c' = [two_beans]).
Proof.
  destruct (successful_mutation_frame st_created "co_8a3f" 0 created_checkout
              "2026-01-01T10:01:00.000Z" [one_mug])
    as (Hu & Hc & _).
  - vm_compute. reflexivity.
  - vm_compute. reflexivity.
  - reflexivity.
  - split.
    + destruct Hu as (r' & σ' & c' & H1 & H2 & H3 & H4 & H5 & H6 & H7).
      exists r', σ', c'.
      exact (conj H1 (conj H2 (conj H3 (conj H4 (conj H5 (conj H6 H7)))))).
    + destruct Hc as (r' & σ' & c' & H1 & H2 & H3 & H4 & H5 & H6 & H7).
      exists r', σ', c'.
      exact (conj H1 (conj H2 (conj H3 H6))).
Defined.

(** ** Returned checkouts are never written to *)

Lemma run_ops_deref ops σ r c :
  deref σ r = Some c → deref (run_ops ops σ) r = Some c.
Proof. apply prefix_deref, run_ops_heap. Qed.

(** C9. Once an operation has returned a checkout object, no later
    sequence of create, get, update, complete and cancel operations
    changes any field of that object: reading it after the sequence gives
    the value it had when it was returned. *)
Theorem returned_checkout_is_stable
    (σ σ1 : State) (op : StoreOp) (later : list StoreOp)
    (r : ref) (c : Checkout) :
  run_op op σ = (Some r, σ1) →
  deref σ1 r = Some c →
  deref (run_ops later σ1) r = Some c.
Proof. intros _ Hd. by apply run_ops_deref. Qed.

Lemma returned_checkout_is_stable_witness :
  deref
    (run_ops [OpUpdate "2026-01-01T10:01:00.000Z" "co_8a3f" [one_mug];
              OpComplete "2026-01-01T10:02:00.000Z" "co_8a3f";
              OpCreate "co_77" "2026-01-01T10:03:00.000Z" [two_beans];
              OpCancel "2026-01-01T10:04:00.000Z" "co_77"]
       st_created) 0
  = Some created_checkout.
Proof.
  apply (returned_checkout_is_stable empty_state st_created
           (OpCreate "co_8a3f" "2026-01-01T10:00:00.000Z" [two_beans])).
  - vm_compute. reflexivity.
  - vm_compute. reflexivity.
Defined.

(** ** Creation *)

(** C4 (amended).  For every line list, [createCheckout] returns a newly
    allocated checkout with status CREATED, the given lines, equal
    createdAt and updatedAt, and the id drawn by [randomId]; it points
    that id at the new object and changes no other key and no existing
    object.  When the drawn id is not yet a key of the store, every
    earlier entry is still there afterwards. *)
Theorem createCheckout_inserts
    (σ : State) (rid t : string) (ls : list CartLine) :
  ∃ r σ' c,
    createCheckout rid t ls σ = (r, σ') ∧
    c = {| id := rid; status := CREATED; lines := ls;
           createdAt := t; updatedAt := t |} ∧
    replaces σ σ' rid r c ∧
    deref σ' r = Some c ∧
    stored σ' rid = Some c ∧
    deref σ r = None ∧
    (∀ k, k ≠ rid → store σ' !! k = store σ !! k) ∧
    (store σ !! rid = None → store σ ⊆ store σ').
Proof.
  eexists _, _, _. split; [reflexivity|]. split; [reflexivity|].
  pose proof (replaces_intro σ rid
    {| id := rid; status := CREATED; lines := ls; createdAt := t; updatedAt := t |})
    as Hrep.
  split; [exact Hrep|].
  split; [by eapply replaces_deref|].
  split; [by eapply replaces_stored|].
  split; [unfold deref; by apply lookup_ge_None_2|].
  split.
  - intros k Hk. by eapply replaces_other_keys.
  - intros Hfresh. simpl. by apply insert_subseteq.
Qed.

(** C4, as stated, fails when [randomId] draws an id that is already a key:
    the id of the returned checkout is then not fresh, and the checkout
    that was stored under it is replaced. *)
Lemma createCheckout_id_collision :
  let σ := st_completed in
  let '(r, σ') :=
    createCheckout "co_8a3f" "2026-01-01T12:00:00.000Z" [one_mug] σ in
  store_wf σ ∧
  stored σ "co_8a3f" = Some completed_checkout ∧
  (∃ c, deref σ' r = Some c ∧ status c = CREATED ∧ is_Some (store σ !! id c)) ∧
  stored σ' "co_8a3f" ≠ Some completed_checkout.
Proof.
  simpl. split; [apply st_completed_wf|].
  split; [vm_compute; reflexivity|].
  split.
  - eexists. split; [vm_compute; reflexivity|]. split; [reflexivity|].
    simpl. exists 1. vm_compute. reflexivity.
  - vm_compute. discriminate.
Qed.

Lemma createCheckout_inserts_witness :
  store st_completed !! "co_77" = None ∧
  store st_completed ⊆
    store (snd (createCheckout "co_77" "2026-01-01T12:00:00.000Z" [one_mug] st_completed)).
Proof.
  destruct (createCheckout_inserts st_completed "co_77"
              "2026-01-01T12:00:00.000Z" [one_mug])
    as (r & σ' & c & Hrun & _ & _ & _ & _ & _ & _ & Hsub).
  rewrite Hrun. simpl. split.
  - vm_compute. reflexivity.
  - apply Hsub. vm_compute. reflexivity.
Defined.

(** ** The REST boundary: what is validated *)

Lemma has_lines_false body :
  has_lines body = false →
  body = NotJson ∨ body = JsonNull ∨ body = JsonBody LinesAbsent ∨
  body = JsonBody LinesNotArray ∨ body = JsonBody (LinesArray []).
Proof. destruct body as [| |[| |[|l ls]]]; simpl; intros H; auto; discriminate. Qed.

Lemma createCheckout_json rid t ls σ :
  json_checkout 201 (snd (createCheckout rid t ls σ)) (fst (createCheckout rid t ls σ))
  = {| http_status := 201;
       payload := JCheckout {| id := rid; status := CREATED; lines := ls;
                               createdAt := t; updatedAt := t |} |}.
Proof.
  unfold json_checkout, deref. simpl. by rewrite new_object_lookup.
Qed.

Lemma POST_checkout_accepts rid t l ls σ :
  POST_checkout rid t (JsonBody (LinesArray (l :: ls))) σ =
    ({| http_status := 201;
        payload := JCheckout {| id := rid; status := CREATED; lines := l :: ls;
                                createdAt := t; updatedAt := t |} |},
     snd (createCheckout rid t (l :: ls) σ)).
Proof.
  unfold POST_checkout. simpl lines_or_empty. cbv iota. simpl Nat.eqb. cbv iota.
  pose proof (createCheckout_json rid t (l :: ls) σ) as Hj.
  destruct (createCheckout rid t (l :: ls) σ) as [r σ'] eqn:E. simpl in *.
  by rewrite Hj.
Qed.

(** C2 (amended).  A create request ([POST_checkout]) and an update
    request ([PATCH_checkout]) are answered with status 400, and the state
    is left as it was, whenever the body is not JSON or carries no
    non-empty array of lines.  Whenever the body does carry a non-empty
    array, the create request is answered with 201 and the checkout holds
    those lines as given: quantities are not inspected. *)
Theorem rest_rejects_empty_lines
    (rid t k : string) (body : ReqBody) (σ : State) :
  (has_lines body = false →
     http_status (fst (POST_checkout rid t body σ)) = 400%nat ∧
     snd (POST_checkout rid t body σ) = σ ∧
     http_status (fst (PATCH_checkout t k body σ)) = 400%nat ∧
     snd (PATCH_checkout t k body σ) = σ) ∧
  (has_lines body = true →
     ∃ ls, body = JsonBody (LinesArray ls) ∧
       POST_checkout rid t body σ =
         ({| http_status := 201;
             payload := JCheckout {| id := rid; status := CREATED; lines := ls;
                                     createdAt := t; updatedAt := t |} |},
          snd (createCheckout rid t ls σ)) ∧
       PATCH_checkout t k body σ =
         (match fst (updateCheckout t k ls σ) with
          | None => json_error 404 "not found"
          | Some r => json_checkout 200 (snd (updateCheckout t k ls σ)) r
          end,
          snd (updateCheckout t k ls σ))).
Proof.
  split.
  - intros H.
    destruct (has_lines_false _ H) as [-> | [-> | [-> | [-> | ->]]]];
      by repeat split.
  - destruct body as [| |[| |[|l ls]]]; simpl; try discriminate.
    intros _. exists (l :: ls). split; [done|].
    split; [apply POST_checkout_accepts|].
    by destruct (updateCheckout t k (l :: ls) σ) as [[r|] σ'].
Qed.

Lemma rest_rejects_empty_lines_witness :
  (http_status
     (fst (POST_checkout "co_77" "2026-01-01T12:00:00.000Z"
             (JsonBody (LinesArray [])) st_created)) = 400%nat ∧
   snd (POST_checkout "co_77" "2026-01-01T12:00:00.000Z"
          (JsonBody (LinesArray [])) st_created) = st_created) ∧
  ∃ ls, JsonBody (LinesArray [one_mug]) = JsonBody (LinesArray ls) ∧
    POST_checkout "co_77" "2026-01-01T12:00:00.000Z"
                  (JsonBody (LinesArray [one_mug])) st_created =
      ({| http_status := 201;
          payload := JCheckout {| id := "co_77"; status := CREATED; lines := ls;
                                  createdAt := "2026-01-01T12:00:00.000Z";
                                  updatedAt := "2026-01-01T12:00:00.000Z" |} |},
       snd (createCheckout "co_77" "2026-01-01T12:00:00.000Z" ls st_created)).
Proof.
  split.
  - destruct (rest_rejects_empty_lines "co_77" "2026-01-01T12:00:00.000Z" "co_8a3f"
                (JsonBody (LinesArray [])) st_created) as [H _].
    destruct (H eq_refl) as (H1 & H2 & _). exact (conj H1 H2).
  - destruct (rest_rejects_empty_lines "co_77" "2026-01-01T12:00:00.000Z" "co_8a3f"
                (JsonBody (LinesArray [one_mug])) st_created) as [_ H].
    destruct (H eq_refl) as (ls & H1 & H2 & _).
    exists ls. exact (conj H1 H2).
Defined.

(** C2, as stated, fails: a line with quantity 0, with a negative quantity
    or with a non-integer quantity is accepted by both handlers, and a
    checkout is created, respectively modified. *)
Lemma rest_accepts_invalid_quantity :
  invalid_quantity (quantity zero_beans) ∧
  invalid_quantity (quantity minus_beans) ∧
  invalid_quantity (quantity half_mug) ∧
  (let '(res, σ') :=
     POST_checkout "co_77" "2026-01-01T12:00:00.000Z"
       (JsonBody (LinesArray [zero_beans; minus_beans; half_mug])) empty_state in
   http_status res = 201%nat ∧
   stored empty_state "co_77" = None ∧
   (∃ c, stored σ' "co_77" = Some c ∧ payload res = JCheckout c ∧
         lines c = [zero_beans; minus_beans; half_mug])) ∧
  (let '(res, σ') :=
     PATCH_checkout "2026-01-01T12:00:00.000Z" "co_8a3f"
       (JsonBody (LinesArray [zero_beans])) st_created in
   http_status res = 200%nat ∧
   stored st_created "co_8a3f" = Some created_checkout ∧
   (∃ c, stored σ' "co_8a3f" = Some c ∧ payload res = JCheckout c ∧
         lines c = [zero_beans])).
Proof.
  split; [left; vm_compute; intros H; discriminate|].
  split; [left; vm_compute; intros H; discriminate|].
  split.
  { right. intros [z Hz]. unfold Qeq in Hz. simpl in Hz. lia. }
  split.
  - vm_compute. split; [reflexivity|]. split; [reflexivity|].
    eexists. repeat split; reflexivity.
  - vm_compute. split; [reflexivity|]. split; [reflexivity|].
    eexists. repeat split; reflexivity.
Qed.

(** ** The gateway's schemas *)

Lemma is_positive_spec q : is_positive q = true ↔ (0 < q)%Q.
Proof.
  unfold is_positive, Qlt. simpl. rewrite Z.ltb_lt. lia.
Qed.

Lemma is_integer_spec q : is_integer q = true ↔ ∃ z : Z, (q == inject_Z z)%Q.
Proof.
  unfold is_integer, Qeq. simpl. rewrite Z.eqb_eq. split.
  - intros H. exists (Qnum q / Z.pos (Qden q))%Z.
    pose proof (Z.div_mod (Qnum q) (Z.pos (Qden q))) as Hdm. lia.
  - intros [z Hz]. rewrite Z.mul_1_r in Hz. rewrite Hz. apply Z.mod_mul. lia.
Qed.

Lemma invalid_quantity_rejected q :
  invalid_quantity q → is_integer q && is_positive q = false.
Proof.
  intros [Hpos | Hint]; apply andb_false_iff.
  - right. apply not_true_is_false. by rewrite is_positive_spec.
  - left. apply not_true_is_false. by rewrite is_integer_spec.
Qed.

Lemma z_string_min1_blank v : blank v → z_string_min1 v = None.
Proof. destruct v as [| |s]; simpl; [done..|]. by intros ->. Qed.

Lemma z_string_min1_given s : s ≠ "" → z_string_min1 (Given s) = Some s.
Proof. destruct s; [done|]. reflexivity. Qed.

Lemma z_string_min1_Some v s : z_string_min1 v = Some s → v = Given s ∧ s ≠ "".
Proof.
  destruct v as [| |s']; simpl; [done..|].
  destruct s'; simpl; [done|]. by intros [= <-].
Qed.

Lemma z_number_int_positive_bad v : bad_quantity v → z_number_int_positive v = None.
Proof.
  destruct v as [| |q]; simpl; [done..|].
  intros H. by rewrite (invalid_quantity_rejected _ H).
Qed.

Lemma LineItem_schema_malformed li : malformed_item li → LineItem_schema li = None.
Proof.
  unfold LineItem_schema. intros [H | H].
  - by rewrite (z_string_min1_blank _ H).
  - rewrite (z_number_int_positive_bad _ H). by destruct (z_string_min1 _).
Qed.

Lemma z_array_min1_malformed v :
  malformed_line_items v → z_array_min1 LineItem_schema v = None.
Proof.
  destruct v as [| |l]; simpl; [done..|].
  intros [-> | Hex]; [done|].
  assert (mapM LineItem_schema l = None) as ->; [|done].
  apply mapM_None_2. eapply Exists_impl; [exact Hex|].
  intros li. apply LineItem_schema_malformed.
Qed.

Lemma CreateCheckoutParams_malformed profile ik cur lis :
  malformed_line_items lis → CreateCheckoutParams profile ik cur lis = None.
Proof.
  intros H. unfold CreateCheckoutParams. rewrite (z_array_min1_malformed _ H).
  by destruct (MetaShape _), (z_string_optional ik), (z_string_optional cur).
Qed.

Lemma UpdateCheckoutParams_malformed profile k lis :
  malformed_line_items lis → UpdateCheckoutParams profile k lis = None.
Proof.
  intros H. unfold UpdateCheckoutParams. rewrite (z_array_min1_malformed _ H).
  by destruct (MetaShape _), (z_string_min1 k).
Qed.

(** C6. A [create_checkout] or [update_checkout] call whose line items
    are malformed (no list, an empty list, a line without a non-empty
    [item.id], a line whose quantity is not a positive integer) is
    answered with the invalid-input error by both gateways; no request is
    issued to the Resource API and the state is left as it was. *)
Theorem gateway_rejects_malformed_line_items
    (net : Network) (rid t : string) (σ : State)
    (profile idempotency_key currency k : Raw string)
    (line_items : Raw (list RawLineItem)) :
  malformed_line_items line_items →
  gateway_http net rid t
    (create_checkout profile idempotency_key currency line_items) σ
    = (InvalidInput, [], σ) ∧
  gateway_http net rid t (update_checkout profile k line_items) σ
    = (InvalidInput, [], σ) ∧
  gateway_stdio net rid t
    (create_checkout profile idempotency_key currency line_items) σ
    = (InvalidInput, [], σ) ∧
  gateway_stdio net rid t (update_checkout profile k line_items) σ
    = (InvalidInput, [], σ).
Proof.
  intros H. simpl.
  rewrite (CreateCheckoutParams_malformed profile idempotency_key currency _ H).
  rewrite (UpdateCheckoutParams_malformed profile k _ H).
  done.
Qed.

(** Scenario E: a tool call with quantity 0. *)
Lemma gateway_rejects_malformed_line_items_witness :
  gateway_http net_up "co_77" "2026-01-01T12:00:00.000Z"
    (create_checkout (Given UCP_PROFILE) Missing Missing
       (Given [ {| raw_item_id := Given "agentic-coffee-beans";
                   raw_quantity := Given 0%Q |} ]))
    st_created
  = (InvalidInput, [], st_created) ∧
  gateway_http net_up "co_77" "2026-01-01T12:00:00.000Z"
    (update_checkout (Given UCP_PROFILE) (Given "co_8a3f")
       (Given [ {| raw_item_id := Given "agentic-coffee-beans";
                   raw_quantity := Given 0%Q |} ]))
    st_created
  = (InvalidInput, [], st_created).
Proof.
  destruct (gateway_rejects_malformed_line_items net_up "co_77"
              "2026-01-01T12:00:00.000Z" st_created
              (Given UCP_PROFILE) Missing Missing (Given "co_8a3f")
              (Given [ {| raw_item_id := Given "agentic-coffee-beans";
                          raw_quantity := Given 0%Q |} ]))
    as (H1 & H2 & _).
  - right. apply Exists_cons_hd. right. left. vm_compute. discriminate.
  - exact (conj H1 H2).
Defined.

(** ** The profile tag *)

Lemma MetaShape_blank pr : blank pr → MetaShape pr = None.
Proof. apply z_string_min1_blank. Qed.

Lemma MetaShape_given s : s ≠ "" → MetaShape (Given s) = Some s.
Proof. apply z_string_min1_given. Qed.

Lemma gateway_http_any_tag net rid t call σ p q :
  p ≠ "" → q ≠ "" →
  gateway_http net rid t (with_profile (Given p) call) σ
  = gateway_http net rid t (with_profile (Given q) call) σ.
Proof.
  intros Hp Hq.
  destruct call as [pr ik cur lis | pr k | pr k lis | pr k | pr k]; simpl;
    unfold CreateCheckoutParams, IdParams, UpdateCheckoutParams;
    rewrite (MetaShape_given p Hp), (MetaShape_given q Hq).
  - by destruct (z_string_optional ik), (z_string_optional cur),
         (z_array_min1 LineItem_schema lis).
  - by destruct (z_string_min1 k).
  - by destruct (z_string_min1 k), (z_array_min1 LineItem_schema lis).
  - by destruct (z_string_min1 k).
  - by destruct (z_string_min1 k).
Qed.

Lemma gateway_stdio_any_tag net rid t call σ p q :
  p ≠ "" → q ≠ "" →
  gateway_stdio net rid t (with_profile (Given p) call) σ
  = gateway_stdio net rid t (with_profile (Given q) call) σ.
Proof.
  intros Hp Hq.
  destruct call as [pr ik cur lis | pr k | pr k lis | pr k | pr k]; simpl;
    unfold CreateCheckoutParams, IdParams, UpdateCheckoutParams;
    rewrite (MetaShape_given p Hp), (MetaShape_given q Hq).
  - by destruct (z_string_optional ik), (z_string_optional cur),
         (z_array_min1 LineItem_schema lis).
  - by destruct (z_string_min1 k).
  - by destruct (z_string_min1 k), (z_array_min1 LineItem_schema lis).
  - by destruct (z_string_min1 k).
  - by destruct (z_string_min1 k).
Qed.

Lemma gateway_blank_tag net rid t call σ :
  blank (profile_of call) →
  gateway_http net rid t call σ = (InvalidInput, [], σ) ∧
  gateway_stdio net rid t call σ = (InvalidInput, [], σ).
Proof.
  intros H.
  destruct call as [pr ik cur lis | pr k | pr k lis | pr k | pr k]; simpl in *;
    unfold CreateCheckoutParams, IdParams, UpdateCheckoutParams;
    by rewrite (MetaShape_blank _ H).
Qed.

(** C7 (amended).  For every tool call, both gateways check that the
    call carries a profile tag that is a non-empty string, and answer with
    the invalid-input error, without reaching the Resource API, when it
    does not.  Every non-empty tag is accepted: the answer, the requests
    issued and the resulting state are the same under any two of them. *)
Theorem gateway_checks_tag_presence_only
    (net : Network) (rid t : string) (call : ToolCall) (σ : State) :
  (blank (profile_of call) →
     gateway_http net rid t call σ = (InvalidInput, [], σ) ∧
     gateway_stdio net rid t call σ = (InvalidInput, [], σ)) ∧
  (∀ p q : string, p ≠ "" → q ≠ "" →
     gateway_http net rid t (with_profile (Given p) call) σ
     = gateway_http net rid t (with_profile (Given q) call) σ ∧
     gateway_stdio net rid t (with_profile (Given p) call) σ
     = gateway_stdio net rid t (with_profile (Given q) call) σ).
Proof.
  split.
  - apply gateway_blank_tag.
  - intros p q Hp Hq. split.
    + by apply gateway_http_any_tag.
    + by apply gateway_stdio_any_tag.
Qed.

Lemma gateway_checks_tag_presence_only_witness :
  gateway_http net_up "co_77" "2026-01-01T12:00:00.000Z"
    (get_checkout Missing (Given "co_8a3f")) st_created
  = (InvalidInput, [], st_created) ∧
  gateway_http net_up "co_77" "2026-01-01T12:00:00.000Z"
    (get_checkout (Given "ucp.checkout.v1") (Given "co_8a3f")) st_created
  = gateway_http net_up "co_77" "2026-01-01T12:00:00.000Z"
      (get_checkout (Given "acme.unknown.v99") (Given "co_8a3f")) st_created.
Proof.
  destruct (gateway_checks_tag_presence_only net_up "co_77"
              "2026-01-01T12:00:00.000Z"
              (get_checkout Missing (Given "co_8a3f")) st_created)
    as [Hblank Hany].
  split.
  - destruct (Hblank I) as [H _]. exact H.
  - destruct (Hany "ucp.checkout.v1" "acme.unknown.v99") as [H _].
    + discriminate.
    + discriminate.
    + exact H.
Defined.

(** C7, as stated, fails: a call tagged with a profile that is not the
    one the repository names ([UCP_PROFILE]) is served like any other. *)
Lemma gateway_serves_unknown_tag :
  "acme.unknown.v99" ≠ UCP_PROFILE ∧
  gateway_http net_up "co_77" "2026-01-01T12:00:00.000Z"
    (get_checkout (Given "acme.unknown.v99") (Given "co_8a3f")) st_created
  = (ToolText (JCheckout created_checkout), [ReqGet "co_8a3f"], st_created) ∧
  gateway_stdio net_up "co_77" "2026-01-01T12:00:00.000Z"
    (create_checkout (Given "acme.unknown.v99") Missing Missing
       (Given [ {| raw_item_id := Given "autonomous-mug";
                   raw_quantity := Given 1%Q |} ]))
    empty_state
  = (ToolText
       {| u_id := "co_77"; u_status := CREATED;
          u_line_items := [ {| item_id := "autonomous-mug"; li_quantity := 1%Q |} ];
          u_createdAt := "2026-01-01T12:00:00.000Z";
          u_updatedAt := "2026-01-01T12:00:00.000Z" |},
     [ReqCreate (JsonBody (LinesArray [one_mug]))],
     snd (createCheckout "co_77" "2026-01-01T12:00:00.000Z" [one_mug] empty_state)).
Proof.
  split; [discriminate|]. split; vm_compute; reflexivity.
Qed.

(** ** The MCP-first routes: fallback *)

Lemma completeCheckout_returns t k σ r σ' :
  completeCheckout t k σ = (Some r, σ') → ∃ c, deref σ' r = Some c.
Proof.
  unfold completeCheckout, deref.
  destruct (store σ !! k) as [r0|]; [|done].
  destruct (heap σ !! r0) as [c0|] eqn:Hc0; [|done].
  destruct (is_created (status c0)); simpl; intros [= <- <-]; simpl.
  - eexists. apply new_object_lookup.
  - by exists c0.
Qed.

Lemma POST_checkout_via_mcp_fallback net rid1 t1 rid2 t2 l ls σ e σ' :
  createCheckoutViaMcp net rid1 t1 (l :: ls) σ = (inl e, σ') →
  POST_checkout_via_mcp net rid1 t1 rid2 t2 (JsonBody (LinesArray (l :: ls))) σ
  = POST_checkout rid2 t2 (JsonBody (LinesArray (l :: ls))) σ'.
Proof.
  intros H. unfold POST_checkout_via_mcp, POST_checkout.
  simpl lines_or_empty. cbv iota. simpl Nat.eqb. cbv iota.
  by rewrite H.
Qed.

Lemma POST_complete_via_mcp_fallback net rid t1 t2 k σ e σ' r σ'' :
  completeCheckoutViaMcp net rid t1 k σ = (inl e, σ') →
  completeCheckout t2 k σ' = (Some r, σ'') →
  POST_complete_via_mcp net rid t1 t2 k σ = (json_checkout 200 σ'' r, σ'').
Proof. intros H1 H2. unfold POST_complete_via_mcp. by rewrite H1, H2. Qed.

Lemma POST_complete_200 t k σ :
  http_status (fst (POST_complete t k σ)) = 200%nat →
  ∃ r σ', completeCheckout t k σ = (Some r, σ') ∧
          POST_complete t k σ = (json_checkout 200 σ' r, σ').
Proof.
  unfold POST_complete. case_decide; [done|].
  destruct (completeCheckout t k σ) as [[r|] σ'] eqn:E; [|done].
  intros _. by exists r, σ'.
Qed.

Lemma unreachable_gateway_throws net rid t ls σ :
  init_transport net = Unreachable →
  createCheckoutViaMcp net rid t ls σ = (inl NetworkError, σ).
Proof. intros H. unfold createCheckoutViaMcp, initSession. by rewrite H. Qed.

(** C8. When the tool-invocation path throws, for whatever reason, the
    MCP-first create route answers exactly as the direct create handler
    does on the state the failed attempt left: 201 with a CREATED
    checkout holding the request's lines.  The MCP-first complete route
    then calls [completeCheckout] itself and, whenever that returns a
    checkout, answers 200 with it, which is the direct complete handler's
    answer whenever that handler succeeds.  With the gateway unreachable
    the create route returns a CREATED checkout and the state is the one
    a direct creation produces. *)
Theorem mcp_failure_falls_back
    (net : Network) (rid1 t1 rid2 t2 : string) (k : string)
    (l : CartLine) (ls : list CartLine) (σ : State) :
  let body := JsonBody (LinesArray (l :: ls)) in
  let fresh_checkout :=
    {| id := rid2; status := CREATED; lines := l :: ls;
       createdAt := t2; updatedAt := t2 |} in
  (∀ e σ', createCheckoutViaMcp net rid1 t1 (l :: ls) σ = (inl e, σ') →
     POST_checkout_via_mcp net rid1 t1 rid2 t2 body σ = POST_checkout rid2 t2 body σ' ∧
     POST_checkout_via_mcp net rid1 t1 rid2 t2 body σ =
       ({| http_status := 201; payload := JCheckout fresh_checkout |},
        snd (createCheckout rid2 t2 (l :: ls) σ'))) ∧
  (∀ e σ', completeCheckoutViaMcp net rid1 t1 k σ = (inl e, σ') →
     (∀ r σ'', completeCheckout t2 k σ' = (Some r, σ'') →
        ∃ c, deref σ'' r = Some c ∧
          POST_complete_via_mcp net rid1 t1 t2 k σ =
            ({| http_status := 200; payload := JCheckout c |}, σ'')) ∧
     (http_status (fst (POST_complete t2 k σ')) = 200%nat →
        POST_complete_via_mcp net rid1 t1 t2 k σ = POST_complete t2 k σ')) ∧
  (init_transport net = Unreachable →
     POST_checkout_via_mcp net rid1 t1 rid2 t2 body σ =
       ({| http_status := 201; payload := JCheckout fresh_checkout |},
        snd (createCheckout rid2 t2 (l :: ls) σ))).
Proof.
  intros body fresh_checkout.
  assert (∀ e σ', createCheckoutViaMcp net rid1 t1 (l :: ls) σ = (inl e, σ') →
     POST_checkout_via_mcp net rid1 t1 rid2 t2 body σ =
       ({| http_status := 201; payload := JCheckout fresh_checkout |},
        snd (createCheckout rid2 t2 (l :: ls) σ'))) as Hcreate.
  { intros e σ' H. unfold body.
    rewrite (POST_checkout_via_mcp_fallback _ _ _ _ _ _ _ _ _ _ H).
    apply POST_checkout_accepts. }
  split; [|split].
  - intros e σ' H. split; [by eapply POST_checkout_via_mcp_fallback|by eapply Hcreate].
  - intros e σ' H. split.
    + intros r σ'' Hc. destruct (completeCheckout_returns _ _ _ _ _ Hc) as [c Hd].
      exists c. split; [done|].
      rewrite (POST_complete_via_mcp_fallback _ _ _ _ _ _ _ _ _ _ H Hc).
      unfold json_checkout. by rewrite Hd.
    + intros H200. destruct (POST_complete_200 _ _ _ H200) as (r & σ'' & Hc & ->).
      by eapply POST_complete_via_mcp_fallback.
  - intros Hdown. eapply Hcreate. by apply unreachable_gateway_throws.
Qed.

(** Scenario D: the gateway is unreachable. *)
Lemma mcp_failure_falls_back_witness :
  POST_checkout_via_mcp net_down "co_11" "2026-01-01T09:00:00.000Z"
      "co_8a3f" "2026-01-01T10:00:00.000Z"
      (JsonBody (LinesArray [two_beans])) empty_state
  = ({| http_status := 201; payload := JCheckout created_checkout |}, st_created) ∧
  POST_complete_via_mcp net_down "co_11" "2026-01-01T09:00:00.000Z"
      "2026-01-01T10:05:00.000Z" "co_8a3f" st_created
  = ({| http_status := 200; payload := JCheckout completed_checkout |}, st_completed).
Proof.
  split.
  - destruct (mcp_failure_falls_back net_down "co_11" "2026-01-01T09:00:00.000Z"
                "co_8a3f" "2026-01-01T10:00:00.000Z" "co_8a3f"
                two_beans [] empty_state) as (_ & _ & H).
    exact (H eq_refl).
  - destruct (mcp_failure_falls_back net_down "co_11" "2026-01-01T09:00:00.000Z"
                "co_8a3f" "2026-01-01T10:05:00.000Z" "co_8a3f"
                two_beans [] st_created) as (_ & H & _).
    destruct (H NetworkError st_created eq_refl) as [_ H200].
    rewrite H200; [|vm_compute; reflexivity].
    vm_compute. reflexivity.
Defined.

(** ** The two bindings create the same checkout *)

Lemma toLines_to_line_items ls : toLines (to_line_items ls) = ls.
Proof.
  induction ls as [|[pid q] ls IH]; [reflexivity|].
  simpl. f_equal. exact IH.
Qed.


Lemma to_line_items_toLines lis : to_line_items (toLines lis) = lis.
Proof.
  induction lis as [|[i q] lis IH]; [reflexivity|].
  simpl. f_equal. exact IH.
Qed.

Lemma toUcpCheckout_lines c : toRestLines (u_line_items (toUcpCheckout c)) = lines c.
Proof. apply toLines_to_line_items. Qed.

(** The translation keeps the order and the number of the lines. *)
Lemma to_line_items_lookup ls i :
  to_line_items ls !! i
  = (λ l, {| item_id := productId l; li_quantity := quantity l |}) <$> ls !! i.
Proof. unfold to_line_items. apply list_lookup_fmap. Qed.

(** The schema returns the line items it was given, when it accepts them. *)
Lemma LineItem_schema_to_wire li li' :
  LineItem_schema (to_wire li) = Some li' → li' = li.
Proof.
  destruct li as [i q]. unfold LineItem_schema, to_wire. simpl.
  destruct i as [|a i]; simpl; [done|].
  destruct (is_integer q && is_positive q); [|done].
  by intros [= <-].
Qed.

Lemma mapM_schema_to_wire lis lis' :
  mapM LineItem_schema (map to_wire lis) = Some lis' → lis' = lis.
Proof.
  revert lis'. induction lis as [|li lis IH]; intros lis' H.
  - by injection H as <-.
  - apply mapM_Some_1 in H. simpl in H.
    apply Forall2_cons_inv_l in H as (li' & tl & Hli & Htl & ->).
    apply LineItem_schema_to_wire in Hli as ->.
    f_equal. apply IH. by apply mapM_Some_2.
Qed.

Lemma LineItem_schema_valid l :
  valid_line l →
  LineItem_schema (to_wire {| item_id := productId l; li_quantity := quantity l |})
  = Some {| item_id := productId l; li_quantity := quantity l |}.
Proof.
  intros (Hid & Hint & Hpos). unfold LineItem_schema, to_wire. simpl.
  destruct (productId l); [done|]. simpl. by rewrite Hint, Hpos.
Qed.

Lemma mapM_schema_valid ls :
  Forall valid_line ls →
  mapM LineItem_schema (map to_wire (to_line_items ls)) = Some (to_line_items ls).
Proof.
  intros H. apply mapM_Some_2. induction H as [|l ls Hl _ IH]; simpl.
  - constructor.
  - constructor; [by apply LineItem_schema_valid | exact IH].
Qed.

Lemma z_array_min1_to_wire lis lis' :
  z_array_min1 LineItem_schema (Given (map to_wire lis)) = Some lis' →
  lis' = lis ∧ lis ≠ [].
Proof.
  simpl. destruct (mapM LineItem_schema (map to_wire lis)) as [l'|] eqn:E; [|done].
  apply mapM_schema_to_wire in E as ->.
  destruct lis; [done|]. simpl. by intros [= <-].
Qed.

(** What the gateways send upstream for a [create_checkout] call built
    from the lines [ls], when the schema accepts it. *)
Lemma CreateCheckoutParams_to_wire pr ik cur ls p :
  CreateCheckoutParams pr ik cur (Given (map to_wire (to_line_items ls))) = Some p →
  toLines (cp_line_items p) = ls ∧ ls ≠ [].
Proof.
  unfold CreateCheckoutParams.
  destruct (MetaShape pr); [|done].
  destruct (z_string_optional ik); [|done].
  destruct (z_string_optional cur); [|done].
  destruct (z_array_min1 _ _) as [lis|] eqn:E; [|done].
  apply z_array_min1_to_wire in E as [-> Hne].
  intros [= <-]. simpl. split; [apply toLines_to_line_items|].
  by destruct ls.
Qed.

Lemma nonempty_cons {A} (l : list A) : l ≠ [] → ∃ x xs, l = x :: xs.
Proof. destruct l as [|x xs]; [done|]. intros _. by exists x, xs. Qed.

Lemma createCheckoutViaMcp_returns net rid t ls σ p σ' :
  createCheckoutViaMcp net rid t ls σ = (inr p, σ') →
  ls ≠ [] ∧
  p = JCheckout {| id := rid; status := CREATED; lines := ls;
                   createdAt := t; updatedAt := t |} ∧
  σ' = snd (createCheckout rid t ls σ).
Proof.
  unfold createCheckoutViaMcp.
  destruct (initSession net) as [e|[sid pv]]; [done|].
  unfold tools_call.
  destruct (call_transport net); try done.
  - unfold gateway_http.
    destruct (CreateCheckoutParams _ _ _ _) as [params|] eqn:E; [|done].
    apply (CreateCheckoutParams_to_wire _ _ _ ls) in E as [Hl Hne].
    rewrite Hl. destruct (nonempty_cons _ Hne) as (x & xs & ->).
    unfold http_tool, fetch_upstream.
    destruct (upstream_reachable net); [|done].
    unfold resource_api. rewrite POST_checkout_accepts. simpl.
    by intros [= <- <-].
  - by destruct (gateway_http _ _ _ _ _) as [[? ?] ?].
Qed.

(** * Further properties of the code *)

(** ** The store: what the three mutators share *)

Lemma updateCheckout_shape t k ls σ :
  updateCheckout t k ls σ =
  replace_if_created
    (λ e, {| id := id e; status := status e; lines := ls;
             createdAt := createdAt e; updatedAt := t |}) k σ.
Proof. reflexivity. Qed.

Lemma completeCheckout_shape t k σ :
  completeCheckout t k σ =
  replace_if_created
    (λ e, {| id := id e; status := COMPLETED; lines := lines e;
             createdAt := createdAt e; updatedAt := t |}) k σ.
Proof. reflexivity. Qed.

Lemma cancelCheckout_shape t k σ :
  cancelCheckout t k σ =
  replace_if_created
    (λ e, {| id := id e; status := CANCELED; lines := lines e;
             createdAt := createdAt e; updatedAt := t |}) k σ.
Proof. reflexivity. Qed.

(** The two outcomes of a mutator on a stored id. *)
Lemma replace_if_created_cases f k σ :
  (replace_if_created f k σ = (None, σ) ∧ stored σ k = None) ∨
  (∃ r c, store σ !! k = Some r ∧ heap σ !! r = Some c ∧
     status c ≠ CREATED ∧ replace_if_created f k σ = (Some r, σ)) ∨
  (∃ r c, store σ !! k = Some r ∧ heap σ !! r = Some c ∧
     status c = CREATED ∧
     replace_if_created f k σ =
       (Some (List.length (heap σ)),
        {| heap := heap σ ++ [f c];
           store := <[k := List.length (heap σ)]> (store σ) |})).
Proof.
  unfold replace_if_created, stored, deref.
  destruct (store σ !! k) as [r|] eqn:Hr; [|by left].
  destruct (heap σ !! r) as [c|] eqn:Hc; simpl; [|left; by rewrite Hc].
  destruct (status c) eqn:Hs; simpl.
  - right; right. by exists r, c.
  - right; left. exists r, c. by rewrite Hs.
  - right; left. exists r, c. by rewrite Hs.
Qed.

Ltac mutator_shape :=
  rewrite ?updateCheckout_shape, ?completeCheckout_shape, ?cancelCheckout_shape.

Lemma run_op_mutator op σ :
  (∃ rid t ls, op = OpCreate rid t ls) ∨ (∃ k, op = OpGet k) ∨
  (∃ f, run_op op σ = replace_if_created f (op_key op) σ ∧
        ∀ e, id (f e) = id e ∧ createdAt (f e) = createdAt e).
Proof.
  destruct op as [rid t ls|k|t k ls|t k|t k]; simpl.
  - left. by exists rid, t, ls.
  - right; left. by exists k.
  - right; right. eexists. split; [apply updateCheckout_shape | done].
  - right; right. eexists. split; [apply completeCheckout_shape | done].
  - right; right. eexists. split; [apply cancelCheckout_shape | done].
Qed.

(** X1. In every state reached from the empty store, whatever the
    operations were, the reference [getCheckout] returns for an id points
    at a live object whose [id] field is that id. *)
Theorem reachable_store_keys_are_ids
    (ops : list StoreOp) (k : string) (r : ref) :
  getCheckout k (run_ops ops empty_state) = Some r →
  ∃ c, deref (run_ops ops empty_state) r = Some c ∧ id c = k.
Proof. intros H. exact (reachable_wf ops k r H). Qed.

Lemma reachable_store_keys_are_ids_witness :
  ∃ c, deref st_completed 1 = Some c ∧ id c = "co_8a3f".
Proof.
  apply (reachable_store_keys_are_ids
           [OpCreate "co_8a3f" "2026-01-01T10:00:00.000Z" [two_beans];
            OpComplete "2026-01-01T10:05:00.000Z" "co_8a3f"] "co_8a3f" 1).
  vm_compute. reflexivity.
Defined.

(** ** The store: keys *)

Lemma replace_if_created_dom f k σ :
  dom (store (snd (replace_if_created f k σ))) = dom (store σ).
Proof.
  destruct (replace_if_created_cases f k σ)
    as [[-> _] | [(r & c & _ & _ & _ & ->) | (r & c & Hr & _ & _ & ->)]];
    simpl; [done..|].
  apply dom_insert_lookup_L. by rewrite Hr.
Qed.

Lemma run_op_dom op σ :
  dom (store (snd (run_op op σ))) =
  match op with
  | OpCreate rid _ _ => {[rid]} ∪ dom (store σ)
  | _ => dom (store σ)
  end.
Proof.
  destruct op as [rid t ls|k|t k ls|t k|t k]; simpl.
  - apply dom_insert_L.
  - done.
  - rewrite updateCheckout_shape. apply replace_if_created_dom.
  - rewrite completeCheckout_shape. apply replace_if_created_dom.
  - rewrite cancelCheckout_shape. apply replace_if_created_dom.
Qed.

(** X2. No operation removes an id.  A creation adds exactly the id it
    drew; get, update, complete and cancel leave the set of ids as it
    was.  Hence every id present at some moment is present after any
    later sequence of operations. *)
Theorem store_ids_only_grow (op : StoreOp) (ops : list StoreOp) (σ : State) :
  dom (store (snd (run_op op σ))) =
    match op with
    | OpCreate rid _ _ => {[rid]} ∪ dom (store σ)
    | _ => dom (store σ)
    end ∧
  dom (store σ) ⊆ dom (store (run_ops ops σ)).
Proof.
  split; [apply run_op_dom|].
  revert σ. induction ops as [|o ops IH]; intros σ; simpl; [done|].
  etrans; [|apply IH]. rewrite run_op_dom. destruct o; set_solver.
Qed.

(** ** The store: the life of one checkout *)

Lemma evolves_refl c : evolves c c.
Proof. repeat split. by right. Qed.

Lemma evolves_trans c1 c2 c3 : evolves c1 c2 → evolves c2 c3 → evolves c1 c3.
Proof.
  intros (Hi & Ht & Hs) (Hi' & Ht' & Hs').
  destruct Hs as [Hs | ->]; [|done].
  repeat split; [congruence.. | by left].
Qed.

Lemma stored_Some σ k c :
  stored σ k = Some c ↔ ∃ r, store σ !! k = Some r ∧ heap σ !! r = Some c.
Proof.
  unfold stored, deref. split.
  - destruct (store σ !! k) as [r|]; simpl; [|done]. intros H. by exists r.
  - intros (r & -> & H). exact H.
Qed.

Lemma replace_if_created_evolves f k k' σ c :
  (∀ e, id (f e) = id e ∧ createdAt (f e) = createdAt e) →
  stored σ k' = Some c →
  ∃ c', stored (snd (replace_if_created f k σ)) k' = Some c' ∧ evolves c c'.
Proof.
  intros Hf Hst.
  destruct (replace_if_created_cases f k σ)
    as [[-> _] | [(r & e & _ & _ & _ & ->) | (r & e & Hr & He & Hs & ->)]];
    simpl; [exists c; split; [done | apply evolves_refl]..|].
  apply stored_Some in Hst as (r' & Hr' & Hc).
  destruct (decide (k = k')) as [<- | Hne].
  - assert (r' = r) as -> by congruence. assert (e = c) as -> by congruence.
    exists (f c). split.
    + apply stored_Some. eexists. simpl. rewrite lookup_insert_eq.
      split; [done | apply new_object_lookup].
    + destruct (Hf c) as [Hi Ht]. repeat split; [done..| by left].
  - exists c. split; [|apply evolves_refl].
    apply stored_Some. exists r'. simpl. rewrite lookup_insert_ne by done.
    split; [done | by apply new_object_keeps].
Qed.

Lemma run_op_evolves op σ k c :
  ¬ creates_on k op → stored σ k = Some c →
  ∃ c', stored (snd (run_op op σ)) k = Some c' ∧ evolves c c'.
Proof.
  intros Hnc Hst.
  destruct (run_op_mutator op σ)
    as [(rid & t & ls & ->) | [(k0 & ->) | (f & -> & Hf)]].
  - simpl in *. exists c. split; [|apply evolves_refl].
    apply stored_Some in Hst as (r & Hr & Hc). apply stored_Some.
    exists r. simpl. rewrite lookup_insert_ne by done.
    split; [done | by apply new_object_keeps].
  - exists c. split; [done | apply evolves_refl].
  - by apply replace_if_created_evolves.
Qed.

(** X3. The life of one checkout.  Through any sequence of operations
    that does not create under its id again, a stored checkout stays
    stored, keeps its id and its createdAt, and, once its status is not
    CREATED, does not change at all: no transition leaves COMPLETED or
    CANCELED. *)
Theorem checkout_lifecycle
    (ops : list StoreOp) (σ : State) (k : string) (c : Checkout) :
  Forall (λ op, ¬ creates_on k op) ops →
  stored σ k = Some c →
  ∃ c', stored (run_ops ops σ) k = Some c' ∧
        id c' = id c ∧ createdAt c' = createdAt c ∧
        (terminal (status c) → c' = c).
Proof.
  intros Hops Hst.
  assert (∃ c', stored (run_ops ops σ) k = Some c' ∧ evolves c c')
    as (c' & Hst' & Hi & Ht & Hs).
  { revert σ c Hst. induction Hops as [|op ops Hop _ IH]; intros σ c Hst; simpl.
    - exists c. split; [done | apply evolves_refl].
    - destruct (run_op_evolves op σ k c Hop Hst) as (c1 & Hst1 & He1).
      destruct (IH _ _ Hst1) as (c2 & Hst2 & He2).
      exists c2. split; [done | by eapply evolves_trans]. }
  exists c'. repeat split; [done..|].
  intros Hterm. destruct Hs as [Hs | ->]; [|done].
  destruct Hterm as [Hx | Hx]; congruence.
Qed.

Lemma checkout_lifecycle_witness :
  ∃ c',
    stored
      (run_ops [OpUpdate "2026-01-01T11:00:00.000Z" "co_8a3f" [one_mug];
                OpCancel "2026-01-01T11:01:00.000Z" "co_8a3f";
                OpCreate "co_77" "2026-01-01T11:02:00.000Z" [one_mug];
                OpComplete "2026-01-01T11:03:00.000Z" "co_8a3f"]
               st_completed) "co_8a3f" = Some c' ∧
    id c' = id completed_checkout ∧
    createdAt c' = createdAt completed_checkout ∧
    (terminal (status completed_checkout) → c' = completed_checkout).
Proof.
  apply (checkout_lifecycle _ st_completed "co_8a3f" completed_checkout).
  - repeat constructor; simpl; try tauto. discriminate.
  - vm_compute. reflexivity.
Defined.

(** ** The store: composing operations *)

Lemma replace_if_created_Some f k σ r σ1 :
  replace_if_created f k σ = (Some r, σ1) →
  store σ1 !! k = Some r ∧
  ∃ c, heap σ1 !! r = Some c ∧
       ((status c ≠ CREATED ∧ σ1 = σ) ∨
        (∃ e, stored σ k = Some e ∧ status e = CREATED ∧ c = f e)).
Proof.
  destruct (replace_if_created_cases f k σ)
    as [[-> _] | [(r0 & e & Hr & He & Hs & ->) | (r0 & e & Hr & He & Hs & ->)]];
    [done|..]; intros [= <- <-].
  - split; [done|]. exists e. split; [done|]. by left.
  - simpl. rewrite lookup_insert_eq. split; [done|].
    exists (f e). split; [apply new_object_lookup|].
    right. exists e. split; [|done]. apply stored_Some. by exists r0.
Qed.

Lemma not_created_terminal s : s ≠ CREATED → terminal s.
Proof. destruct s; [done | by left | by right]. Qed.

Lemma finished_is_frozen k σ r c t ls :
  store σ !! k = Some r → heap σ !! r = Some c → terminal (status c) →
  updateCheckout t k ls σ = (Some r, σ) ∧
  completeCheckout t k σ = (Some r, σ) ∧
  cancelCheckout t k σ = (Some r, σ).
Proof.
  intros Hr Hc Ht. repeat split.
  - by eapply updateCheckout_terminal.
  - by eapply completeCheckout_terminal.
  - by eapply cancelCheckout_terminal.
Qed.

(** X4. The first terminal transition wins.  Whatever [completeCheckout]
    returns for an id (the newly completed checkout, or the one that was
    already COMPLETED or CANCELED), every later update, complete or cancel
    on that id returns that same object and changes nothing; the same
    holds after [cancelCheckout].  In particular a completed checkout
    cannot be canceled and a canceled one cannot be completed. *)
Theorem first_terminal_transition_wins
    (σ σ1 : State) (k : string) (r : ref)
    (t t' : string) (ls : list CartLine) :
  completeCheckout t k σ = (Some r, σ1) ∨ cancelCheckout t k σ = (Some r, σ1) →
  (∃ c, deref σ1 r = Some c ∧ terminal (status c)) ∧
  updateCheckout t' k ls σ1 = (Some r, σ1) ∧
  completeCheckout t' k σ1 = (Some r, σ1) ∧
  cancelCheckout t' k σ1 = (Some r, σ1).
Proof.
  intros H.
  assert (store σ1 !! k = Some r ∧ ∃ c, heap σ1 !! r = Some c ∧ terminal (status c))
    as (Hr & c & Hc & Hterm).
  { destruct H as [H | H].
    - rewrite completeCheckout_shape in H.
      apply replace_if_created_Some in H as (Hr & c & Hc & Hcase).
      split; [done|]. exists c. split; [done|].
      destruct Hcase as [[Hs _] | (e & _ & _ & ->)];
        [by apply not_created_terminal | by left].
    - rewrite cancelCheckout_shape in H.
      apply replace_if_created_Some in H as (Hr & c & Hc & Hcase).
      split; [done|]. exists c. split; [done|].
      destruct Hcase as [[Hs _] | (e & _ & _ & ->)];
        [by apply not_created_terminal | by right]. }
  split; [by exists c|]. by eapply finished_is_frozen.
Qed.

Lemma first_terminal_transition_wins_witness :
  cancelCheckout "2026-01-01T10:06:00.000Z" "co_8a3f" st_completed
    = (Some 1, st_completed) ∧
  updateCheckout "2026-01-01T10:06:00.000Z" "co_8a3f" [one_mug] st_completed
    = (Some 1, st_completed).
Proof.
  destruct (first_terminal_transition_wins st_created st_completed "co_8a3f" 1
              "2026-01-01T10:05:00.000Z" "2026-01-01T10:06:00.000Z" [one_mug])
    as (_ & Hu & _ & Hx).
  - left. vm_compute. reflexivity.
  - exact (conj Hx Hu).
Defined.

Lemma replace_if_created_other f k k' σ :
  store_wf σ → k' ≠ k →
  stored (snd (replace_if_created f k σ)) k' = stored σ k'.
Proof.
  intros Hwf Hne.
  destruct (replace_if_created_cases f k σ)
    as [[-> _] | [(r & e & _ & _ & _ & ->) | (r & e & Hr & He & Hs & ->)]];
    [done..|].
  unfold stored, deref. simpl. rewrite lookup_insert_ne by done.
  destruct (store σ !! k') as [r'|] eqn:Hr'; simpl; [|done].
  destruct (Hwf _ _ Hr') as (c' & Hc' & _). rewrite Hc'.
  by apply new_object_keeps.
Qed.

(** X5. Operations on one id do not touch the checkout of another id: in
    a well-formed state, after any operation, the checkout stored under
    every id other than the one the operation addresses is what it was. *)
Theorem operations_are_isolated_per_id
    (op : StoreOp) (σ : State) (k' : string) :
  store_wf σ → k' ≠ op_key op →
  stored (snd (run_op op σ)) k' = stored σ k'.
Proof.
  intros Hwf Hne.
  destruct (run_op_mutator op σ)
    as [(rid & t & ls & ->) | [(k0 & ->) | (f & -> & Hf)]].
  - simpl in *. unfold stored, deref. simpl. rewrite lookup_insert_ne by done.
    destruct (store σ !! k') as [r'|] eqn:Hr'; simpl; [|done].
    destruct (Hwf _ _ Hr') as (c' & Hc' & _). rewrite Hc'.
    by apply new_object_keeps.
  - done.
  - by apply replace_if_created_other.
Qed.

Lemma operations_are_isolated_per_id_witness :
  stored (snd (run_op (OpCreate "co_77" "2026-01-01T11:02:00.000Z" [one_mug])
                 st_completed)) "co_8a3f"
  = stored st_completed "co_8a3f" ∧
  stored (snd (run_op (OpCancel "2026-01-01T11:02:00.000Z" "co_77")
                 st_created)) "co_8a3f"
  = stored st_created "co_8a3f".
Proof.
  split.
  - apply operations_are_isolated_per_id; [apply st_completed_wf | discriminate].
  - apply operations_are_isolated_per_id; [apply st_created_wf | discriminate].
Defined.

(** X6. Read your writes, by reference.  Whenever an operation returns a
    checkout, a [getCheckout] on the id the operation addressed, made
    right after it, returns that very object: the store hands out the
    reference it holds, not a copy. *)
Theorem returned_object_is_the_stored_one
    (op : StoreOp) (σ σ' : State) (r : ref) :
  run_op op σ = (Some r, σ') →
  getCheckout (op_key op) σ' = Some r.
Proof.
  intros H. unfold getCheckout.
  destruct (run_op_mutator op σ)
    as [(rid & t & ls & ->) | [(k0 & ->) | (f & Hf & _)]].
  - simpl in H. injection H as <- <-. simpl. by rewrite lookup_insert_eq.
  - simpl in H. by injection H as H' <-.
  - rewrite Hf in H. by apply replace_if_created_Some in H as (Hr & _).
Qed.

Lemma returned_object_is_the_stored_one_witness :
  getCheckout "co_8a3f" st_completed = Some 1.
Proof.
  apply (returned_object_is_the_stored_one
           (OpComplete "2026-01-01T10:05:00.000Z" "co_8a3f") st_created).
  vm_compute. reflexivity.
Defined.

(** ** The Resource API: answers and state *)

Lemma replace_if_created_live f k σ r σ' :
  replace_if_created f k σ = (Some r, σ') → ∃ c, deref σ' r = Some c.
Proof.
  intros H. apply replace_if_created_Some in H as (_ & c & Hc & _).
  by exists c.
Qed.

Lemma replace_if_created_None f k σ σ' :
  replace_if_created f k σ = (None, σ') → σ' = σ ∧ stored σ k = None.
Proof.
  destruct (replace_if_created_cases f k σ)
    as [[-> ?] | [(r & e & _ & _ & _ & ->) | (r & e & _ & _ & _ & ->)]];
    [|done..].
  by intros [= <-].
Qed.

Lemma replace_if_created_wf f k σ :
  (∀ e, id (f e) = id e) → store_wf σ →
  store_wf (snd (replace_if_created f k σ)).
Proof.
  intros Hf Hwf.
  destruct (replace_if_created_cases f k σ)
    as [[-> _] | [(r & e & _ & _ & _ & ->) | (r & e & Hr & He & _ & ->)]];
    [done..|].
  simpl. apply store_wf_insert; [done|].
  destruct (Hwf _ _ Hr) as (e' & He' & Hid). rewrite Hf. congruence.
Qed.

Lemma replace_if_created_stored f k σ r σ' :
  (∀ e, id (f e) = id e) → store_wf σ →
  replace_if_created f k σ = (Some r, σ') →
  ∃ c, deref σ' r = Some c ∧ id c = k ∧ stored σ' k = Some c.
Proof.
  intros Hf Hwf H.
  pose proof (replace_if_created_wf f k σ Hf Hwf) as Hwf'. rewrite H in Hwf'.
  apply replace_if_created_Some in H as (Hr & c & Hc & _).
  destruct (Hwf' _ _ Hr) as (c' & Hc' & Hid). simpl in *.
  assert (c' = c) as -> by congruence.
  exists c. repeat split; [done..|]. apply stored_Some. by exists r.
Qed.

(** What a handler built around a mutator answers. *)
Lemma mutator_answer f k σ (nf : HttpResponse) :
  (∀ e, id (f e) = id e) →
  let '(o, σ') := replace_if_created f k σ in
  let res := match o with None => nf | Some r => json_checkout 200 σ' r end in
  (o = None → σ' = σ ∧ res = nf ∧ stored σ k = None) ∧
  (∀ r, o = Some r →
     ∃ c, res = {| http_status := 200; payload := JCheckout c |} ∧
          (store_wf σ → id c = k ∧ stored σ' k = Some c)).
Proof.
  intros Hf. destruct (replace_if_created f k σ) as [[r|] σ'] eqn:E.
  - split; [done|]. intros r' [= <-].
    destruct (replace_if_created_live _ _ _ _ _ E) as [c Hc].
    exists c. split; [unfold json_checkout; by rewrite Hc|].
    intros Hwf. destruct (replace_if_created_stored _ _ _ _ _ Hf Hwf E)
      as (c' & Hc' & Hid & Hst).
    assert (c' = c) as -> by congruence. done.
  - split; [|done]. intros _.
    apply replace_if_created_None in E as [-> Hst]. done.
Qed.

Lemma resource_api_wf rid t req σ :
  store_wf σ → store_wf (snd (resource_api rid t req σ)).
Proof.
  intros Hwf. destruct req as [body|k|k body|k|k]; simpl.
  - unfold POST_checkout.
    destruct body as [| |l]; [done..|].
    destruct (lines_or_empty l) as [| |ls]; [done..|].
    destruct (List.length ls =? 0)%nat; [done|].
    pose proof (createCheckout_wf rid t ls σ Hwf) as H.
    by destruct (createCheckout rid t ls σ).
  - unfold GET_checkout. by destruct (getCheckout k σ).
  - unfold PATCH_checkout.
    destruct body as [| |l]; [done..|].
    destruct (lines_or_empty l) as [| |ls]; [done..|].
    destruct (List.length ls =? 0)%nat; [done|].
    pose proof (updateCheckout_wf t k ls σ Hwf) as H.
    by destruct (updateCheckout t k ls σ) as [[r|] σ'].
  - unfold POST_complete. case_decide; [done|].
    pose proof (completeCheckout_wf t k σ Hwf) as Hc.
    by destruct (completeCheckout t k σ) as [[r|] σ'].
  - unfold POST_cancel.
    pose proof (cancelCheckout_wf t k σ Hwf) as H.
    by destruct (cancelCheckout t k σ) as [[r|] σ'].
Qed.

Lemma mutator_handler_cases f k σ (nf : State → HttpResponse) res σ' :
  (∀ e, id (f e) = id e) → (∀ s, error_answer (nf s)) →
  match replace_if_created f k σ with
  | (None, σ1) => (nf σ1, σ1)
  | (Some r, σ1) => (json_checkout 200 σ1 r, σ1)
  end = (res, σ') →
  (σ' = σ ∧ error_answer res ∧ store σ !! k ≫= deref σ = None) ∨
  checkout_answer σ σ' res.
Proof.
  intros Hf Hnf.
  destruct (replace_if_created f k σ) as [[r|] σ1] eqn:E; intros [= <- <-].
  - right. split; [by left|]. left.
    destruct (replace_if_created_live _ _ _ _ _ E) as [c Hc].
    exists c. split; [unfold json_checkout; simpl; by rewrite Hc|].
    intros Hwf. destruct (replace_if_created_stored _ _ _ _ _ Hf Hwf E)
      as (c' & Hc' & Hid & Hst).
    assert (c' = c) as -> by congruence. by rewrite Hid.
  - left. apply replace_if_created_None in E as [-> Hst]. done.
Qed.

Lemma resource_api_cases rid t req σ res σ' :
  resource_api rid t req σ = (res, σ') →
  (σ' = σ ∧ error_answer res) ∨ checkout_answer σ σ' res.
Proof.
  assert (∀ c s, error_answer (json_error c s) ↔ (c = 400 ∨ c = 404)%nat) as Herr.
  { intros c s. unfold error_answer, json_error. simpl. split.
    - by intros (? & ? & _ & H).
    - intros H. by eexists _, _. }
  destruct req as [body|k|k body|k|k]; simpl.
  - unfold POST_checkout.
    destruct body as [| |l];
      [intros [= <- <-]; left; split; [done|apply Herr; by left]..|].
    destruct (lines_or_empty l) as [| |ls];
      [intros [= <- <-]; left; split; [done|apply Herr; by left]..|].
    destruct ls as [|l0 ls]; simpl Nat.eqb; cbv iota;
      [intros [= <- <-]; left; split; [done|apply Herr; by left]|].
    pose proof (createCheckout_json rid t (l0 :: ls) σ) as Hj.
    destruct (createCheckout rid t (l0 :: ls) σ) as [r σ1] eqn:E. simpl in Hj.
    intros [= <- <-]. right. rewrite Hj. split; [by right|]. left.
    eexists. split; [reflexivity|]. intros _. simpl.
    assert (σ1 = snd (createCheckout rid t (l0 :: ls) σ)) as -> by by rewrite E.
    eapply replaces_stored, replaces_intro.
  - unfold GET_checkout, getCheckout.
    destruct (store σ !! k) as [r|] eqn:Hr; intros [= <- <-];
      [|left; split; [done|apply Herr; by right]].
    right. split; [by left|]. unfold json_checkout, deref. simpl.
    destruct (heap σ !! r) as [c|] eqn:Hc.
    + left. exists c. split; [done|]. intros Hwf.
      destruct (Hwf _ _ Hr) as (c' & Hc' & <-).
      assert (c' = c) as -> by congruence.
      apply stored_Some. by exists r.
    + right. repeat split; [done..|]. intros Hwf.
      destruct (Hwf _ _ Hr) as (c' & Hc' & _). congruence.
  - unfold PATCH_checkout.
    destruct body as [| |l];
      [intros [= <- <-]; left; split; [done|apply Herr; by left]..|].
    destruct (lines_or_empty l) as [| |ls];
      [intros [= <- <-]; left; split; [done|apply Herr; by left]..|].
    destruct ls as [|l0 ls]; simpl Nat.eqb; cbv iota;
      [intros [= <- <-]; left; split; [done|apply Herr; by left]|].
    rewrite updateCheckout_shape. intros Hrun.
    apply (mutator_handler_cases _ _ _ (λ _, json_error 404 "not found")) in Hrun
      as [(-> & He & _) | Hck]; [by left | by right | done |].
    intros _. apply Herr. by right.
  - unfold POST_complete. case_decide;
      [intros [= <- <-]; left; split; [done|apply Herr; by left]|].
    rewrite completeCheckout_shape. intros Hrun.
    apply (mutator_handler_cases _ _ _
             (λ s, {| http_status := 404;
                      payload := JError "not found"
                        (Some match getCheckout k s ≫= deref s with
                              | Some existing =>
                                "checkout exists but status is "
                                  +:+ status_name (status existing)
                              | None =>
                                "checkout not in store (create and complete must hit the same app)"
                              end) |})) in Hrun
      as [(-> & He & _) | Hck]; [by left | by right | done |].
    intros s. eexists _, _. split; [reflexivity | by right].
  - unfold POST_cancel. rewrite cancelCheckout_shape. intros Hrun.
    apply (mutator_handler_cases _ _ _ (λ _, json_error 404 "not found")) in Hrun
      as [(-> & He & _) | Hck]; [by left | by right | done |].
    intros _. apply Herr. by right.
Qed.

Lemma error_answer_not_ok res : error_answer res → ok res = false.
Proof. intros (e & h & _ & [H | H]); unfold ok; by rewrite H. Qed.

Lemma checkout_answer_ok σ σ' res : checkout_answer σ σ' res → ok res = true.
Proof. intros [[H | H] _]; unfold ok; by rewrite H. Qed.

(** X7. The answers of the Resource API.  Every request is answered with
    200, 201, 400 or 404.  A request answered with an error (400 or 404)
    leaves the state exactly as it was.  In a well-formed state, a request
    answered with 200 or 201 carries a checkout, and that checkout is the
    one the store holds under the checkout's own id when the handler
    returns. *)
Theorem resource_api_answers
    (rid t : string) (req : ApiRequest) (σ : State) :
  let res := fst (resource_api rid t req σ) in
  let σ' := snd (resource_api rid t req σ) in
  http_status res ∈ [200; 201; 400; 404]%nat ∧
  (ok res = false → σ' = σ ∧ ∃ e h, payload res = JError e h) ∧
  (ok res = true → store_wf σ →
     ∃ c, payload res = JCheckout c ∧ stored σ' (id c) = Some c).
Proof.
  intros res σ'.
  destruct (resource_api_cases rid t req σ res σ') as [[Hσ Herr] | Hck];
    [apply surjective_pairing|..].
  - pose proof (error_answer_not_ok _ Herr) as Hnok.
    destruct Herr as (e & h & Hp & Hs).
    split; [destruct Hs as [-> | ->]; rewrite !elem_of_cons; auto|].
    split; [intros _; split; [done | by exists e, h]|].
    congruence.
  - pose proof (checkout_answer_ok _ _ _ Hck) as Hok.
    destruct Hck as [Hs Hp].
    split; [destruct Hs as [-> | ->]; rewrite !elem_of_cons; auto|].
    split; [congruence|].
    intros _ Hwf. destruct Hp as [(c & Hp & Hst) | (_ & _ & Hnwf)]; [|done].
    exists c. split; [done | by apply Hst].
Qed.

Lemma resource_api_answers_witness :
  snd (resource_api "co_77" "2026-01-01T12:00:00.000Z"
         (ReqUpdate "co_ffff" (JsonBody (LinesArray [one_mug]))) st_completed)
  = st_completed ∧
  ∃ c, payload (fst (resource_api "co_77" "2026-01-01T12:00:00.000Z"
                       (ReqCancel "co_8a3f") st_created)) = JCheckout c ∧
       stored (snd (resource_api "co_77" "2026-01-01T12:00:00.000Z"
                      (ReqCancel "co_8a3f") st_created)) (id c) = Some c.
Proof.
  split.
  - destruct (resource_api_answers "co_77" "2026-01-01T12:00:00.000Z"
                (ReqUpdate "co_ffff" (JsonBody (LinesArray [one_mug])))
                st_completed) as (_ & H & _).
    destruct H as [H _]; [vm_compute; reflexivity | exact H].
  - destruct (resource_api_answers "co_77" "2026-01-01T12:00:00.000Z"
                (ReqCancel "co_8a3f") st_created) as (_ & _ & H).
    apply H; [vm_compute; reflexivity | apply st_created_wf].
Defined.

(** X8. The complete handler's 404.  Whenever
    [POST /api/ucp/checkout/[id]/complete] answers 404, the id is not in
    the store, the state is unchanged, and the hint is the
    "checkout not in store" text: the other hint, "checkout exists but
    status is ...", is never sent. *)
Theorem complete_404_means_absent (t k : string) (σ : State) :
  http_status (fst (POST_complete t k σ)) = 404%nat →
  payload (fst (POST_complete t k σ)) =
    JError "not found"
      (Some "checkout not in store (create and complete must hit the same app)") ∧
  snd (POST_complete t k σ) = σ ∧
  stored σ k = None.
Proof.
  unfold POST_complete. case_decide; [done|].
  rewrite completeCheckout_shape.
  destruct (replace_if_created _ k σ) as [[r|] σ'] eqn:E; [done|].
  apply replace_if_created_None in E as [-> Hst].
  intros _. simpl. unfold getCheckout. unfold stored in Hst. by rewrite Hst.
Qed.

Lemma complete_404_means_absent_witness :
  payload (fst (POST_complete "2026-01-01T12:00:00.000Z" "co_ffff" st_completed)) =
    JError "not found"
      (Some "checkout not in store (create and complete must hit the same app)") ∧
  snd (POST_complete "2026-01-01T12:00:00.000Z" "co_ffff" st_completed) = st_completed ∧
  stored st_completed "co_ffff" = None.
Proof.
  apply complete_404_means_absent. vm_compute. reflexivity.
Defined.

(** ** The Resource API: lines are never empty *)

Lemma lines_never_empty_snoc σ c k r :
  lines_never_empty σ → lines c ≠ [] →
  lines_never_empty {| heap := heap σ ++ [c]; store := <[k := r]> (store σ) |}.
Proof.
  unfold lines_never_empty. simpl. intros H Hc.
  apply Forall_app. split; [done|]. by constructor.
Qed.

Lemma replace_if_created_lines f k σ :
  (∀ e, lines e ≠ [] → lines (f e) ≠ []) →
  lines_never_empty σ → lines_never_empty (snd (replace_if_created f k σ)).
Proof.
  intros Hf Hinv.
  destruct (replace_if_created_cases f k σ)
    as [[-> _] | [(r & e & _ & _ & _ & ->) | (r & e & _ & He & _ & ->)]];
    [done..|].
  simpl. apply lines_never_empty_snoc; [done|].
  apply Hf. unfold lines_never_empty in Hinv.
  rewrite Forall_forall in Hinv. apply Hinv.
  apply list_elem_of_lookup. by exists r.
Qed.

Lemma resource_api_lines rid t req σ :
  lines_never_empty σ → lines_never_empty (snd (resource_api rid t req σ)).
Proof.
  intros Hinv. destruct req as [body|k|k body|k|k]; simpl.
  - unfold POST_checkout.
    destruct body as [| |l]; [done..|].
    destruct (lines_or_empty l) as [| |ls]; [done..|].
    destruct ls as [|l0 ls]; simpl Nat.eqb; cbv iota; [done|].
    simpl. by apply lines_never_empty_snoc.
  - unfold GET_checkout. by destruct (getCheckout k σ).
  - unfold PATCH_checkout.
    destruct body as [| |l]; [done..|].
    destruct (lines_or_empty l) as [| |ls]; [done..|].
    destruct ls as [|l0 ls]; simpl Nat.eqb; cbv iota; [done|].
    rewrite updateCheckout_shape.
    pose proof (replace_if_created_lines
      (λ e, {| id := id e; status := status e; lines := l0 :: ls;
               createdAt := createdAt e; updatedAt := t |}) k σ) as Hl.
    destruct (replace_if_created _ k σ) as [[r|] σ']; simpl in *; by apply Hl.
  - unfold POST_complete. case_decide; [done|].
    rewrite completeCheckout_shape.
    pose proof (replace_if_created_lines
      (λ e, {| id := id e; status := COMPLETED; lines := lines e;
               createdAt := createdAt e; updatedAt := t |}) k σ) as Hl.
    destruct (replace_if_created _ k σ) as [[r|] σ']; simpl in *; by apply Hl.
  - unfold POST_cancel. rewrite cancelCheckout_shape.
    pose proof (replace_if_created_lines
      (λ e, {| id := id e; status := CANCELED; lines := lines e;
               createdAt := createdAt e; updatedAt := t |}) k σ) as Hl.
    destruct (replace_if_created _ k σ) as [[r|] σ']; simpl in *; by apply Hl.
Qed.

Lemma run_api_lines calls : ∀ σ,
  lines_never_empty σ → lines_never_empty (run_api calls σ).
Proof.
  induction calls as [|c calls IH]; intros σ Hinv; simpl; [done|].
  by apply IH, resource_api_lines.
Qed.

Lemma run_api_wf calls : ∀ σ, store_wf σ → store_wf (run_api calls σ).
Proof.
  induction calls as [|c calls IH]; intros σ Hwf; simpl; [done|].
  by apply IH, resource_api_wf.
Qed.

(** X9. A store that is only driven through the Resource API never holds
    a checkout with an empty line list, whatever the requests were, and
    every id it holds is the [id] of the checkout stored under it.  (The
    store functions themselves accept an empty list; the handlers are
    what keeps it out.) *)
Theorem api_checkouts_have_lines
    (calls : list ApiCall) (k : string) (c : Checkout) :
  stored (run_api calls empty_state) k = Some c →
  lines c ≠ [] ∧ id c = k.
Proof.
  intros Hst. apply stored_Some in Hst as (r & Hr & Hc). split.
  - assert (lines_never_empty (run_api calls empty_state)) as Hinv
      by (apply run_api_lines; constructor).
    unfold lines_never_empty in Hinv. rewrite Forall_forall in Hinv.
    apply Hinv. apply list_elem_of_lookup. by exists r.
  - destruct (run_api_wf calls empty_state store_wf_empty _ _ Hr) as (c' & Hc' & Hid).
    congruence.
Qed.

Lemma api_checkouts_have_lines_witness :
  lines created_checkout ≠ [] ∧ id created_checkout = "co_8a3f".
Proof.
  apply (api_checkouts_have_lines
           [ {| call_rid := "co_8a3f"; call_now := "2026-01-01T10:00:00.000Z";
                call_req := ReqCreate (JsonBody (LinesArray [two_beans])) |};
             {| call_rid := "co_0"; call_now := "2026-01-01T10:01:00.000Z";
                call_req := ReqUpdate "co_8a3f" (JsonBody (LinesArray [])) |} ]).
  vm_compute. reflexivity.
Defined.

(** ** The gateways: one request per call *)

Lemma gateway_http_tool_request net rid t call σ :
  gateway_http net rid t call σ =
  match tool_request call with
  | None => (InvalidInput, [], σ)
  | Some (label, req) => http_tool net rid t label req σ
  end.
Proof.
  destruct call as [pr ik cur lis|pr k|pr k lis|pr k|pr k]; simpl.
  - by destruct (CreateCheckoutParams pr ik cur lis).
  - by destruct (IdParams pr k).
  - by destruct (UpdateCheckoutParams pr k lis).
  - by destruct (IdParams pr k).
  - by destruct (IdParams pr k).
Qed.

Lemma gateway_stdio_tool_request net rid t call σ :
  gateway_stdio net rid t call σ =
  match tool_request call with
  | None => (InvalidInput, [], σ)
  | Some (label, req) => stdio_tool net rid t req σ
  end.
Proof.
  destruct call as [pr ik cur lis|pr k|pr k lis|pr k|pr k]; simpl.
  - by destruct (CreateCheckoutParams pr ik cur lis).
  - by destruct (IdParams pr k).
  - by destruct (UpdateCheckoutParams pr k lis).
  - by destruct (IdParams pr k).
  - by destruct (IdParams pr k).
Qed.

Lemma LineItem_schema_Some li li' :
  LineItem_schema li = Some li' →
  valid_line {| productId := item_id li'; quantity := li_quantity li' |}.
Proof.
  unfold LineItem_schema.
  destruct (z_string_min1 (raw_item_id li)) as [i|] eqn:Hi; [|done].
  destruct (z_number_int_positive (raw_quantity li)) as [q|] eqn:Hq; [|done].
  intros [= <-]. apply z_string_min1_Some in Hi as [_ Hi].
  unfold z_number_int_positive in Hq.
  destruct (raw_quantity li) as [| |q']; [done..|].
  destruct (is_integer q' && is_positive q') eqn:Hb; [|done].
  injection Hq as <-. apply andb_true_iff in Hb as [? ?]. by repeat split.
Qed.

Lemma z_array_min1_Some v lis :
  z_array_min1 LineItem_schema v = Some lis →
  toLines lis ≠ [] ∧ Forall valid_line (toLines lis).
Proof.
  destruct v as [| |l]; simpl; [done..|].
  destruct (mapM LineItem_schema l) as [l'|] eqn:E; [|done].
  destruct l' as [|x xs]; simpl; [done|]. intros [= <-].
  split; [done|].
  apply mapM_Some_1 in E. unfold toLines. apply Forall_fmap.
  apply Forall2_Forall_r with (Q := λ li',
    valid_line {| productId := item_id li'; quantity := li_quantity li' |})
    in E; [exact E|].
  apply Forall_true. intros li li'. apply LineItem_schema_Some.
Qed.

Lemma tool_request_wellformed call label req :
  tool_request call = Some (label, req) → request_wellformed req.
Proof.
  destruct call as [pr ik cur lis|pr k|pr k lis|pr k|pr k]; simpl.
  - unfold CreateCheckoutParams.
    destruct (MetaShape pr); [|done].
    destruct (z_string_optional ik); [|done].
    destruct (z_string_optional cur); [|done].
    destruct (z_array_min1 LineItem_schema lis) as [l|] eqn:E; [|done].
    simpl. intros [= <- <-]. by apply z_array_min1_Some in E.
  - unfold IdParams. destruct (MetaShape pr); [|done].
    destruct (z_string_min1 k) as [i|] eqn:E; [|done].
    simpl. intros [= <- <-]. by apply z_string_min1_Some in E as [_ ?].
  - unfold UpdateCheckoutParams. destruct (MetaShape pr); [|done].
    destruct (z_string_min1 k) as [i|] eqn:E; [|done].
    destruct (z_array_min1 LineItem_schema lis) as [l|] eqn:E'; [|done].
    simpl. intros [= <- <-].
    apply z_string_min1_Some in E as [_ ?]. by apply z_array_min1_Some in E'.
  - unfold IdParams. destruct (MetaShape pr); [|done].
    destruct (z_string_min1 k) as [i|] eqn:E; [|done].
    simpl. intros [= <- <-]. by apply z_string_min1_Some in E as [_ ?].
  - unfold IdParams. destruct (MetaShape pr); [|done].
    destruct (z_string_min1 k) as [i|] eqn:E; [|done].
    simpl. intros [= <- <-]. by apply z_string_min1_Some in E as [_ ?].
Qed.

Lemma tool_request_key call label req :
  tool_request call = Some (label, req) → request_key req = call_key call.
Proof.
  destruct call as [pr ik cur lis|pr k|pr k lis|pr k|pr k]; simpl.
  - destruct (CreateCheckoutParams pr ik cur lis); [|done]. simpl. by intros [= <- <-].
  - unfold IdParams. destruct (MetaShape pr); [|done].
    destruct (z_string_min1 k) as [i|] eqn:E; [|done].
    simpl. intros [= <- <-]. by apply z_string_min1_Some in E as [-> _].
  - unfold UpdateCheckoutParams. destruct (MetaShape pr); [|done].
    destruct (z_string_min1 k) as [i|] eqn:E; [|done].
    destruct (z_array_min1 LineItem_schema lis); [|done].
    simpl. intros [= <- <-]. by apply z_string_min1_Some in E as [-> _].
  - unfold IdParams. destruct (MetaShape pr); [|done].
    destruct (z_string_min1 k) as [i|] eqn:E; [|done].
    simpl. intros [= <- <-]. by apply z_string_min1_Some in E as [-> _].
  - unfold IdParams. destruct (MetaShape pr); [|done].
    destruct (z_string_min1 k) as [i|] eqn:E; [|done].
    simpl. intros [= <- <-]. by apply z_string_min1_Some in E as [-> _].
Qed.

(** X10. What the gateways send upstream.  On a call whose id, if it has
    one, is made of letters, digits, [-] and [_] only, so that the path
    the handler builds from it has the id as one segment: the call makes
    at most one request to the Resource API; the request addresses the
    id of the call, which is not empty; its line list is not empty and
    holds only lines with a non-empty product id and a positive integer
    quantity.  Both gateways make the same requests. *)
Theorem gateway_requests_are_wellformed
    (net : Network) (rid t : string) (call : ToolCall) (σ : State) :
  safe_call call →
  let reqs := snd (fst (gateway_http net rid t call σ)) in
  (List.length reqs ≤ 1)%nat ∧
  Forall (λ req,
    request_wellformed req ∧
    request_key req = call_key call ∧
    ∀ k, request_key req = Some k → k ≠ "" ∧ url_safe k = true) reqs ∧
  snd (fst (gateway_stdio net rid t call σ)) = reqs.
Proof.
  intros Hsafe.
  rewrite gateway_http_tool_request, gateway_stdio_tool_request.
  destruct (tool_request call) as [[label req]|] eqn:E; simpl.
  - unfold http_tool, stdio_tool.
    destruct (fetch_upstream net rid t req σ) as [f σ']. simpl.
    split; [lia|]. split; [|done].
    pose proof (tool_request_wellformed _ _ _ E) as Hw.
    pose proof (tool_request_key _ _ _ E) as Hk.
    constructor; [|constructor].
    split; [done|]. split; [done|].
    intros k Hreq. split; [|apply Hsafe; congruence].
    destruct req; simpl in Hreq, Hw; [done|..]; injection Hreq as ->;
      [done | by destruct Hw | done | done].
  - split; [lia|]. split; [constructor | done].
Qed.

Lemma gateway_requests_are_wellformed_witness :
  Forall (λ req, request_wellformed req ∧ request_key req = Some "co_8a3f")
    (snd (fst (gateway_http net_up "co_0" "2026-01-01T10:02:00.000Z"
                 (update_checkout (Given UCP_PROFILE) (Given "co_8a3f")
                    (Given (map to_wire (to_line_items [two_beans; one_mug]))))
                 st_created))).
Proof.
  destruct (gateway_requests_are_wellformed net_up "co_0" "2026-01-01T10:02:00.000Z"
              (update_checkout (Given UCP_PROFILE) (Given "co_8a3f")
                 (Given (map to_wire (to_line_items [two_beans; one_mug]))))
              st_created) as (_ & H & _).
  - intros k Hk. simpl in Hk. injection Hk as <-. reflexivity.
  - eapply Forall_impl; [exact H|].
    intros req (Hw & Hk & _). split; [exact Hw | exact Hk].
Defined.

Lemma translated_assertOk label fetched :
  translated (assertOk_then_json label fetched) =
  match rest fetched with
  | inl e => ToolThrew e
  | inr (JCheckout c) => ToolText (toUcpCheckout c)
  | inr _ => ToolThrew ShapeError
  end.
Proof.
  unfold assertOk_then_json, rest. destruct fetched as [res|]; [|done].
  destruct (ok res); [|done]. by destruct (payload res).
Qed.

Lemma gateways_agree_state net rid t call σ :
  snd (gateway_stdio net rid t call σ) = snd (gateway_http net rid t call σ).
Proof.
  rewrite gateway_http_tool_request, gateway_stdio_tool_request.
  destruct (tool_request call) as [[label req]|]; [|done].
  unfold http_tool, stdio_tool.
  by destruct (fetch_upstream net rid t req σ) as [f σ'].
Qed.

(** X11. The two gateways agree.  On every call whose id, if it has one,
    is made of letters, digits, [-] and [_] only, on every network and
    state, the stdio gateway makes the same requests and leaves the same
    state as the HTTP gateway, and its answer is the HTTP gateway's
    answer in the other wire shape: the same checkout with nested line
    items on success; on an upstream error, where the HTTP gateway throws
    with the tool's label, the status and the body, the stdio gateway
    throws with the body's [error] text alone, and the status is lost. *)
Theorem gateways_agree
    (net : Network) (rid t : string) (call : ToolCall) (σ : State) :
  safe_call call →
  gateway_stdio net rid t call σ =
  (translated (fst (fst (gateway_http net rid t call σ))),
   snd (fst (gateway_http net rid t call σ)),
   snd (gateway_http net rid t call σ)).
Proof.
  intros _.
  rewrite gateway_http_tool_request, gateway_stdio_tool_request.
  destruct (tool_request call) as [[label req]|]; [|done].
  unfold http_tool, stdio_tool.
  destruct (fetch_upstream net rid t req σ) as [f σ']. simpl.
  by rewrite translated_assertOk.
Qed.

Lemma gateways_agree_witness :
  fst (fst (gateway_http net_up "co_77" "2026-01-01T12:00:00.000Z"
              (complete_checkout (Given UCP_PROFILE) (Given "co_ffff")) st_created))
  = ToolThrew (AssertOkFailed "complete_checkout" 404
      (JError "not found"
         (Some "checkout not in store (create and complete must hit the same app)"))) ∧
  gateway_stdio net_up "co_77" "2026-01-01T12:00:00.000Z"
    (complete_checkout (Given UCP_PROFILE) (Given "co_ffff")) st_created
  = (ToolThrew (RestFailed "not found"), [ReqComplete "co_ffff"], st_created).
Proof.
  split; [vm_compute; reflexivity|].
  rewrite (gateways_agree net_up "co_77" "2026-01-01T12:00:00.000Z"
             (complete_checkout (Given UCP_PROFILE) (Given "co_ffff")) st_created).
  - vm_compute. reflexivity.
  - intros k Hk. simpl in Hk. injection Hk as <-. reflexivity.
Defined.

(** ** The gateways: errors *)

Lemma http_tool_cases net rid t label req σ o reqs σ' :
  http_tool net rid t label req σ = (o, reqs, σ') →
  reqs = [req] ∧
  ((upstream_reachable net = false ∧ o = ToolThrew FetchRejected ∧ σ' = σ) ∨
   (upstream_reachable net = true ∧
    ∃ res, resource_api rid t req σ = (res, σ') ∧
      ((ok res = true ∧ o = ToolText (payload res)) ∨
       (ok res = false ∧ σ' = σ ∧
        o = ToolThrew (AssertOkFailed label (http_status res) (payload res)))))).
Proof.
  unfold http_tool, fetch_upstream.
  destruct (upstream_reachable net).
  - destruct (resource_api rid t req σ) as [res σ1] eqn:E. simpl.
    intros [= <- <- <-]. split; [done|]. right. split; [done|].
    exists res. split; [done|].
    destruct (ok res) eqn:Hok; [by left|]. right.
    split; [done|]. split; [|done].
    pose proof (resource_api_cases _ _ _ _ _ _ E) as [[-> _] | Hck]; [done|].
    apply checkout_answer_ok in Hck. congruence.
  - simpl. intros [= <- <- <-]. split; [done|]. by left.
Qed.

(** X12. A tool call that fails changes nothing, and no upstream failure
    is swallowed.  On a call whose id, if it has one, is made of letters,
    digits, [-] and [_] only: when the HTTP gateway answers with a
    checkout text, the Resource API was reached, answered 2xx, and the
    text is its payload.  In every other case (arguments rejected,
    upstream unreachable, upstream answered 400 or 404) the state is
    exactly what it was, and an upstream error answer is passed on with
    its status and body. *)
Theorem failed_tool_call_changes_nothing
    (net : Network) (rid t : string) (call : ToolCall) (σ : State) :
  safe_call call →
  let o := fst (fst (gateway_http net rid t call σ)) in
  let σ' := snd (gateway_http net rid t call σ) in
  (∀ p, o = ToolText p →
     upstream_reachable net = true ∧
     ∃ label req res, tool_request call = Some (label, req) ∧
       resource_api rid t req σ = (res, σ') ∧ ok res = true ∧ payload res = p) ∧
  ((∀ p, o ≠ ToolText p) → σ' = σ) ∧
  (∀ label code body, o = ToolThrew (AssertOkFailed label code body) →
     ∃ req, tool_request call = Some (label, req) ∧
       fst (resource_api rid t req σ) = {| http_status := code; payload := body |} ∧
       (code = 400 ∨ code = 404)%nat).
Proof.
  intros _ o σ'. subst o σ'. rewrite gateway_http_tool_request.
  destruct (tool_request call) as [[label req]|] eqn:E; simpl;
    [|repeat split; done].
  destruct (http_tool net rid t label req σ) as [[o reqs] σ'] eqn:Ht. simpl.
  apply http_tool_cases in Ht
    as (-> & [(Hup & -> & ->) | (Hup & res & Hres & [[Hok ->] | (Hok & -> & ->)])]).
  - repeat split; done.
  - split; [|split; [|done]].
    + intros p [= <-]. split; [done|]. by exists label, req, res.
    + intros Hno. by destruct (Hno (payload res)).
  - split; [done|]. split; [done|].
    intros label' code body [= <- <- <-]. exists req. split; [done|].
    rewrite Hres. simpl. split; [by destruct res|].
    pose proof (resource_api_cases _ _ _ _ _ _ Hres) as [[_ Herr] | Hck].
    + by destruct Herr as (? & ? & _ & ?).
    + apply checkout_answer_ok in Hck. congruence.
Qed.

Lemma failed_tool_call_changes_nothing_witness :
  snd (gateway_http net_up "co_77" "2026-01-01T12:00:00.000Z"
         (complete_checkout (Given UCP_PROFILE) (Given "co_ffff")) st_created)
  = st_created ∧
  ∃ req,
    tool_request (complete_checkout (Given UCP_PROFILE) (Given "co_ffff"))
      = Some ("complete_checkout", req) ∧
    http_status (fst (resource_api "co_77" "2026-01-01T12:00:00.000Z" req st_created))
      = 404%nat.
Proof.
  destruct (failed_tool_call_changes_nothing net_up "co_77"
              "2026-01-01T12:00:00.000Z"
              (complete_checkout (Given UCP_PROFILE) (Given "co_ffff")) st_created)
    as (_ & Hsame & Herr).
  { intros k Hk. simpl in Hk. injection Hk as <-. reflexivity. }
  split.
  - apply Hsame. intros p. vm_compute. discriminate.
  - destruct (Herr "complete_checkout" 404%nat
                (JError "not found"
                   (Some "checkout not in store (create and complete must hit the same app)")))
      as (req & Hreq & Hres & _).
    + vm_compute. reflexivity.
    + exists req. split; [exact Hreq|]. rewrite Hres. reflexivity.
Defined.

(** ** The gateway's wire shape loses nothing *)

Lemma to_line_items_inj ls ls' : to_line_items ls = to_line_items ls' → ls = ls'.
Proof.
  intros H. rewrite <- (toLines_to_line_items ls), <- (toLines_to_line_items ls').
  by rewrite H.
Qed.

(** X13. [toUcpCheckout] is injective, and its line items translate back
    to the lines it was given: two checkouts with the same wire form are
    the same checkout, so the stdio gateway's output shape determines the
    Resource API's checkout completely. *)
Theorem toUcpCheckout_is_lossless (c c' : Checkout) :
  toRestLines (u_line_items (toUcpCheckout c)) = lines c ∧
  (toUcpCheckout c = toUcpCheckout c' → c = c').
Proof.
  split; [apply toUcpCheckout_lines|].
  destruct c as [i s ls ca ua], c' as [i' s' ls' ca' ua'].
  unfold toUcpCheckout. simpl. intros [= -> -> Hl -> ->].
  f_equal. by apply to_line_items_inj.
Qed.

Lemma toUcpCheckout_is_lossless_witness :
  toRestLines (u_line_items (toUcpCheckout completed_checkout)) = [two_beans] ∧
  completed_checkout = completed_checkout.
Proof.
  destruct (toUcpCheckout_is_lossless completed_checkout completed_checkout)
    as [H1 H2].
  split; [exact H1 | exact (H2 eq_refl)].
Defined.

(** ** The tool path of the client *)

Lemma session_granted net :
  init_transport net = Delivered →
  (∃ sid, init_session_header net = Some sid ∧ sid ≠ "") →
  ∃ sid pv, initSession net = inr (sid, pv).
Proof.
  intros Hi (sid & Hs & Hne). unfold initSession. rewrite Hi, Hs.
  case_decide; [done|]. by eexists _, _.
Qed.

Lemma initSession_inr net sid pv :
  initSession net = inr (sid, pv) →
  init_transport net = Delivered ∧ init_session_header net = Some sid ∧ sid ≠ "".
Proof.
  unfold initSession. destruct (init_transport net); try done.
  destruct (init_session_header net) as [s|]; [|done].
  case_decide; [done|]. by intros [= <- _].
Qed.

Lemma create_args_valid ls p :
  CreateCheckoutParams (Given UCP_PROFILE) Missing Missing
    (Given (map to_wire (to_line_items ls))) = Some p →
  toLines (cp_line_items p) = ls ∧ ls ≠ [] ∧ Forall valid_line ls.
Proof.
  intros H.
  pose proof (CreateCheckoutParams_to_wire _ _ _ _ _ H) as [Hl Hne].
  split; [done|]. split; [done|].
  unfold CreateCheckoutParams in H. simpl in H.
  destruct (mapM LineItem_schema (map to_wire (to_line_items ls))) as [lis|] eqn:E;
    [|done].
  assert (z_array_min1 LineItem_schema (Given (map to_wire (to_line_items ls)))
          = Some (cp_line_items p)) as Hz.
  { simpl. rewrite E. destruct lis; simpl in *; [done|]. by injection H as <-. }
  apply z_array_min1_Some in Hz as [_ Hv]. by rewrite Hl in Hv.
Qed.

Lemma create_args_accept ls :
  ls ≠ [] → Forall valid_line ls →
  tool_request (create_checkout (Given UCP_PROFILE) Missing Missing
                  (Given (map to_wire (to_line_items ls))))
  = Some ("create_checkout", ReqCreate (JsonBody (LinesArray ls))).
Proof.
  intros Hne Hv. unfold tool_request, CreateCheckoutParams, z_array_min1.
  rewrite (mapM_schema_valid _ Hv).
  destruct ls as [|l ls]; [done|].
  change (MetaShape (Given UCP_PROFILE)) with (Some UCP_PROFILE).
  destruct l as [pid q]. simpl.
  by rewrite (toLines_to_line_items ls).
Qed.

Lemma create_args_reject ls :
  ¬ Forall valid_line ls →
  tool_request (create_checkout (Given UCP_PROFILE) Missing Missing
                  (Given (map to_wire (to_line_items ls)))) = None.
Proof.
  intros Hnv. simpl.
  destruct (CreateCheckoutParams _ _ _ _) as [p|] eqn:E; [|done].
  by apply create_args_valid in E as (_ & _ & Hv).
Qed.

Lemma createCheckoutViaMcp_inr_valid
    (net : Network) (rid t : string) (ls : list CartLine)
    (σ σ' : State) (p : Payload) :
  createCheckoutViaMcp net rid t ls σ = (inr p, σ') →
  ls ≠ [] ∧ Forall valid_line ls ∧
  init_transport net = Delivered ∧
  (∃ sid, init_session_header net = Some sid ∧ sid ≠ "") ∧
  call_transport net = Delivered ∧
  upstream_reachable net = true.
Proof.
  unfold createCheckoutViaMcp.
  destruct (initSession net) as [e|[sid pv]] eqn:Hi; [done|].
  apply initSession_inr in Hi as (Hit & Hs & Hne).
  unfold tools_call. destruct (call_transport net) eqn:Hc; try done.
  - unfold gateway_http.
    destruct (CreateCheckoutParams _ _ _ _) as [params|] eqn:E; [|done].
    apply create_args_valid in E as (_ & Hnil & Hv).
    unfold http_tool, fetch_upstream.
    destruct (upstream_reachable net); [|done].
    intros _. split; [done|]. split; [done|]. split; [done|].
    split; [by exists sid|]. done.
  - by destruct (gateway_http _ _ _ _ _) as [[? ?] ?].
Qed.

(** X14. The tool path creates only what the gateway's schema accepts.
    Whenever [createCheckoutViaMcp] returns a checkout, the handshake was
    answered with a non-empty session id, the call was delivered, the
    gateway reached the Resource API, and the line list was non-empty
    with a non-empty product id and a positive integer quantity on every
    line. *)
Theorem tool_path_creates_only_valid_lines
    (net : Network) (rid t : string) (ls : list CartLine)
    (σ σ' : State) (p : Payload) :
  createCheckoutViaMcp net rid t ls σ = (inr p, σ') →
  ls ≠ [] ∧ Forall valid_line ls ∧
  init_transport net = Delivered ∧
  (∃ sid, init_session_header net = Some sid ∧ sid ≠ "") ∧
  call_transport net = Delivered ∧
  upstream_reachable net = true.
Proof. apply createCheckoutViaMcp_inr_valid. Qed.

Lemma tool_path_creates_only_valid_lines_witness :
  [two_beans; one_mug] ≠ [] ∧ Forall valid_line [two_beans; one_mug].
Proof.
  destruct (tool_path_creates_only_valid_lines net_up "co_11"
              "2026-01-01T09:00:00.000Z" [two_beans; one_mug] empty_state
              (snd (createCheckout "co_11" "2026-01-01T09:00:00.000Z"
                      [two_beans; one_mug] empty_state))
              (JCheckout {| id := "co_11"; status := CREATED;
                            lines := [two_beans; one_mug];
                            createdAt := "2026-01-01T09:00:00.000Z";
                            updatedAt := "2026-01-01T09:00:00.000Z" |}))
    as (H1 & H2 & _).
  - vm_compute. reflexivity.
  - exact (conj H1 H2).
Defined.

(** ** The MCP-first create route under every network *)

Lemma create_request ls label req :
  tool_request (create_checkout (Given UCP_PROFILE) Missing Missing
                  (Given (map to_wire (to_line_items ls)))) = Some (label, req) →
  req = ReqCreate (JsonBody (LinesArray ls)) ∧ ls ≠ [] ∧ Forall valid_line ls.
Proof.
  simpl. destruct (CreateCheckoutParams _ _ _ _) as [p|] eqn:E; [|done].
  apply create_args_valid in E as (Hl & Hne & Hv).
  simpl. intros [= <- <-]. by rewrite Hl.
Qed.

(** What the gateway does to the state on a [create_checkout] call. *)
Lemma create_call_state net rid t ls σ :
  let call := create_checkout (Given UCP_PROFILE) Missing Missing
                (Given (map to_wire (to_line_items ls))) in
  snd (gateway_http net rid t call σ) = σ ∨
  (snd (gateway_http net rid t call σ) = snd (createCheckout rid t ls σ) ∧
   ls ≠ [] ∧ Forall valid_line ls ∧ upstream_reachable net = true).
Proof.
  intros call. rewrite gateway_http_tool_request.
  destruct (tool_request call) as [[label req]|] eqn:E; [|by left].
  apply create_request in E as (-> & Hne & Hv).
  unfold http_tool, fetch_upstream.
  destruct (upstream_reachable net); [|by left].
  right. destruct ls as [|l ls]; [done|].
  unfold resource_api. by rewrite POST_checkout_accepts.
Qed.

Lemma createCheckoutViaMcp_state net rid t ls σ :
  snd (createCheckoutViaMcp net rid t ls σ) = σ ∨
  (snd (createCheckoutViaMcp net rid t ls σ) = snd (createCheckout rid t ls σ) ∧
   ls ≠ [] ∧ Forall valid_line ls ∧ upstream_reachable net = true ∧
   (call_transport net = Delivered ∨ call_transport net = ReplyUnreadable)).
Proof.
  unfold createCheckoutViaMcp.
  destruct (initSession net) as [e|[sid pv]]; [by left|].
  pose proof (create_call_state net rid t ls σ) as H. cbv zeta in H.
  unfold tools_call.
  change (map (λ l, {| item_id := productId l; li_quantity := quantity l |}) ls)
    with (to_line_items ls).
  destruct (call_transport net) eqn:Hc; [|by left..|].
  - destruct (gateway_http net rid t _ σ) as [[o reqs] σ1]. simpl in *.
    destruct H as [-> | (-> & Hne & Hv & Hup)]; [by left|].
    right. repeat split; [done..|]. by left.
  - destruct (gateway_http net rid t _ σ) as [[o reqs] σ1]. simpl in *.
    destruct H as [-> | (-> & Hne & Hv & Hup)]; [by left|].
    right. repeat split; [done..|]. by right.
Qed.

(** X15. The MCP-first create route never fails on a non-empty cart.
    Under every network condition, a request with a non-empty array of
    lines is answered 201 with a CREATED checkout that holds exactly
    those lines, whose createdAt equals its updatedAt, and which is the
    checkout stored under its id when the handler returns; its id is the
    one drawn behind the gateway or the one drawn by the fallback. *)
Theorem mcp_first_create_always_answers
    (net : Network) (rid1 t1 rid2 t2 : string)
    (l : CartLine) (ls : list CartLine) (σ : State) :
  ∃ c σ',
    POST_checkout_via_mcp net rid1 t1 rid2 t2 (JsonBody (LinesArray (l :: ls))) σ
      = ({| http_status := 201; payload := JCheckout c |}, σ') ∧
    status c = CREATED ∧ lines c = l :: ls ∧ createdAt c = updatedAt c ∧
    ((id c = rid1 ∧ createdAt c = t1) ∨ (id c = rid2 ∧ createdAt c = t2)) ∧
    stored σ' (id c) = Some c.
Proof.
  assert (∀ rid t s,
    stored (snd (createCheckout rid t (l :: ls) s)) rid
    = Some {| id := rid; status := CREATED; lines := l :: ls;
              createdAt := t; updatedAt := t |}) as Hstored.
  { intros rid t s. eapply replaces_stored. apply replaces_intro. }
  destruct (createCheckoutViaMcp net rid1 t1 (l :: ls) σ) as [[e|p] σ1] eqn:E.
  - eexists _, _.
    rewrite (POST_checkout_via_mcp_fallback _ _ _ rid2 t2 _ _ _ _ _ E).
    rewrite POST_checkout_accepts.
    split; [reflexivity|]. simpl. repeat split; [by right | apply Hstored].
  - apply createCheckoutViaMcp_returns in E as Hret.
    destruct Hret as (_ & -> & ->).
    eexists _, _. split.
    + unfold POST_checkout_via_mcp. simpl lines_or_empty. cbv iota.
      simpl Nat.eqb. cbv iota. rewrite E. reflexivity.
    + simpl. repeat split; [by left | apply Hstored].
Qed.

(** X16. The fallback lets through what the gateway refuses.  When some
    line of a non-empty cart is not valid for the gateway's schema (empty
    product id, or a quantity that is not a positive integer), the
    MCP-first create route answers, under every network condition,
    exactly as the direct handler does on the same state: 201, with the
    invalid lines stored as given. *)
Theorem fallback_bypasses_gateway_validation
    (net : Network) (rid1 t1 rid2 t2 : string)
    (l : CartLine) (ls : list CartLine) (σ : State) :
  ¬ Forall valid_line (l :: ls) →
  POST_checkout_via_mcp net rid1 t1 rid2 t2 (JsonBody (LinesArray (l :: ls))) σ
  = POST_checkout rid2 t2 (JsonBody (LinesArray (l :: ls))) σ ∧
  POST_checkout rid2 t2 (JsonBody (LinesArray (l :: ls))) σ =
    ({| http_status := 201;
        payload := JCheckout {| id := rid2; status := CREATED; lines := l :: ls;
                                createdAt := t2; updatedAt := t2 |} |},
     snd (createCheckout rid2 t2 (l :: ls) σ)).
Proof.
  intros Hnv. split; [|apply POST_checkout_accepts].
  destruct (createCheckoutViaMcp net rid1 t1 (l :: ls) σ) as [[e|p] σ1] eqn:E.
  - rewrite (POST_checkout_via_mcp_fallback _ _ _ rid2 t2 _ _ _ _ _ E).
    destruct (createCheckoutViaMcp_state net rid1 t1 (l :: ls) σ) as [H | H];
      rewrite E in H; simpl in H; [by subst|].
    by destruct H as (_ & _ & Hv & _).
  - apply createCheckoutViaMcp_inr_valid in E as (_ & Hv & _). done.
Qed.

Lemma fallback_bypasses_gateway_validation_witness :
  POST_checkout_via_mcp net_up "co_11" "2026-01-01T09:00:00.000Z"
    "co_22" "2026-01-01T09:00:01.000Z"
    (JsonBody (LinesArray [zero_beans])) empty_state
  = ({| http_status := 201;
        payload := JCheckout {| id := "co_22"; status := CREATED;
                                lines := [zero_beans];
                                createdAt := "2026-01-01T09:00:01.000Z";
                                updatedAt := "2026-01-01T09:00:01.000Z" |} |},
     snd (createCheckout "co_22" "2026-01-01T09:00:01.000Z" [zero_beans] empty_state)).
Proof.
  destruct (fallback_bypasses_gateway_validation net_up "co_11"
              "2026-01-01T09:00:00.000Z" "co_22" "2026-01-01T09:00:01.000Z"
              zero_beans [] empty_state) as [H1 H2].
  - intros H. apply Forall_cons in H as [(_ & _ & Hpos) _]. discriminate.
  - rewrite H1. exact H2.
Defined.

Lemma createCheckout_twice rid1 t1 rid2 t2 ls σ :
  rid1 ≠ rid2 →
  let σ' := snd (createCheckout rid2 t2 ls (snd (createCheckout rid1 t1 ls σ))) in
  stored σ' rid1 = Some (created_at rid1 t1 ls) ∧
  stored σ' rid2 = Some (created_at rid2 t2 ls).
Proof.
  intros Hne σ'. split.
  - apply stored_Some. exists (List.length (heap σ)). subst σ'. simpl.
    rewrite lookup_insert_ne by done. rewrite lookup_insert_eq.
    split; [done|]. apply new_object_keeps, new_object_lookup.
  - eapply replaces_stored, replaces_intro.
Qed.

(** X17. A lost reply makes the route create twice.  When the handshake
    succeeds, the gateway reaches the Resource API and the cart is valid,
    but the reply to the tool call cannot be read, the checkout created
    behind the gateway stays in the store and the fallback creates a
    second one: after the request the store holds both, and the caller is
    given the second. *)
Theorem lost_reply_creates_twice
    (net : Network) (rid1 t1 rid2 t2 : string)
    (l : CartLine) (ls : list CartLine) (σ : State) :
  init_transport net = Delivered →
  (∃ sid, init_session_header net = Some sid ∧ sid ≠ "") →
  call_transport net = ReplyUnreadable →
  upstream_reachable net = true →
  Forall valid_line (l :: ls) →
  rid1 ≠ rid2 →
  let out :=
    POST_checkout_via_mcp net rid1 t1 rid2 t2 (JsonBody (LinesArray (l :: ls))) σ in
  fst out = {| http_status := 201;
               payload := JCheckout (created_at rid2 t2 (l :: ls)) |} ∧
  stored (snd out) rid1 = Some (created_at rid1 t1 (l :: ls)) ∧
  stored (snd out) rid2 = Some (created_at rid2 t2 (l :: ls)).
Proof.
  intros Hi Hs Hc Hup Hv Hne out.
  assert (createCheckoutViaMcp net rid1 t1 (l :: ls) σ
          = (inl BadReply, snd (createCheckout rid1 t1 (l :: ls) σ))) as E.
  { unfold createCheckoutViaMcp.
    destruct (session_granted net Hi Hs) as (sid & pv & ->).
    unfold tools_call. rewrite Hc.
    change (map (λ l0, {| item_id := productId l0; li_quantity := quantity l0 |})
                (l :: ls)) with (to_line_items (l :: ls)).
    rewrite gateway_http_tool_request.
    rewrite (create_args_accept (l :: ls)) by done.
    unfold http_tool, fetch_upstream. rewrite Hup.
    unfold resource_api. by rewrite POST_checkout_accepts. }
  subst out. rewrite (POST_checkout_via_mcp_fallback _ _ _ rid2 t2 _ _ _ _ _ E).
  rewrite POST_checkout_accepts. simpl. split; [done|].
  by apply createCheckout_twice.
Qed.

Lemma lost_reply_creates_twice_witness :
  let out :=
    POST_checkout_via_mcp
      {| init_transport := Delivered;
         init_session_header := Some "3f6c1c0e-session";
         init_protocol_version := None;
         call_transport := ReplyUnreadable;
         upstream_reachable := true |}
      "co_11" "2026-01-01T09:00:00.000Z" "co_22" "2026-01-01T09:00:01.000Z"
      (JsonBody (LinesArray [two_beans])) empty_state in
  stored (snd out) "co_11"
    = Some (created_at "co_11" "2026-01-01T09:00:00.000Z" [two_beans]) ∧
  stored (snd out) "co_22"
    = Some (created_at "co_22" "2026-01-01T09:00:01.000Z" [two_beans]).
Proof.
  destruct (lost_reply_creates_twice
              {| init_transport := Delivered;
                 init_session_header := Some "3f6c1c0e-session";
                 init_protocol_version := None;
                 call_transport := ReplyUnreadable;
                 upstream_reachable := true |}
              "co_11" "2026-01-01T09:00:00.000Z" "co_22" "2026-01-01T09:00:01.000Z"
              two_beans [] empty_state) as (_ & H1 & H2).
  - reflexivity.
  - exists "3f6c1c0e-session". split; [reflexivity | discriminate].
  - reflexivity.
  - reflexivity.
  - repeat constructor; discriminate.
  - discriminate.
  - exact (conj H1 H2).
Defined.

(** ** The MCP-first complete route under every network *)

Lemma completeCheckout_on_stored t k σ c :
  stored σ k = Some c →
  ∃ r σ1 c1,
    completeCheckout t k σ = (Some r, σ1) ∧
    deref σ1 r = Some c1 ∧ stored σ1 k = Some c1 ∧ terminal (status c1) ∧
    ((terminal (status c) ∧ c1 = c ∧ σ1 = σ) ∨
     (status c = CREATED ∧ c1 = completed_at t c)).
Proof.
  intros Hst. apply stored_Some in Hst as (r & Hr & Hc).
  destruct (is_created (status c)) eqn:Hs.
  - assert (status c = CREATED) as Hcr by by destruct (status c).
    rewrite (completeCheckout_created t k σ r c Hr Hc Hcr).
    eexists _, _, (completed_at t c). split; [reflexivity|].
    split; [apply new_object_lookup|].
    split; [eapply replaces_stored, replaces_intro|].
    split; [by left | by right].
  - assert (terminal (status c)) as Ht by by destruct (status c); [|left|right].
    rewrite (completeCheckout_terminal t k σ r c Hr Hc Ht).
    exists r, σ, c. split; [done|]. split; [done|].
    split; [apply stored_Some; by exists r|]. split; [done | by left].
Qed.

Lemma completeCheckout_absent t k σ :
  stored σ k = None → completeCheckout t k σ = (None, σ).
Proof.
  rewrite completeCheckout_shape. intros Hst.
  destruct (replace_if_created_cases
              (λ e, {| id := id e; status := COMPLETED; lines := lines e;
                       createdAt := createdAt e; updatedAt := t |}) k σ)
    as [[H _] | [(r & c & Hr & Hc & _) | (r & c & Hr & Hc & _)]]; [done|..];
    unfold stored, deref in Hst; rewrite Hr in Hst; simpl in Hst; congruence.
Qed.

Lemma complete_request k :
  tool_request (complete_checkout (Given UCP_PROFILE) (Given k)) =
  if decide (k = "") then None else Some ("complete_checkout", ReqComplete k).
Proof.
  simpl. unfold IdParams.
  change (MetaShape (Given UCP_PROFILE)) with (Some UCP_PROFILE). cbv iota.
  case_decide as Hk; [by subst|]. by rewrite z_string_min1_given.
Qed.

Lemma complete_tool_run net rid t k σ :
  (snd (gateway_http net rid t (complete_checkout (Given UCP_PROFILE) (Given k)) σ) = σ ∧
   ∀ p, fst (fst (gateway_http net rid t
                    (complete_checkout (Given UCP_PROFILE) (Given k)) σ)) ≠ ToolText p) ∨
  (k ≠ "" ∧ ok (fst (POST_complete t k σ)) = true ∧
   gateway_http net rid t (complete_checkout (Given UCP_PROFILE) (Given k)) σ
   = (ToolText (payload (fst (POST_complete t k σ))), [ReqComplete k],
      snd (POST_complete t k σ))).
Proof.
  rewrite gateway_http_tool_request, complete_request.
  case_decide as Hk; [by left|].
  destruct (http_tool net rid t "complete_checkout" (ReqComplete k) σ)
    as [[o reqs] σ1] eqn:Ht.
  apply http_tool_cases in Ht as (-> & [(Hup & -> & ->) | (Hup & res & Hres & Hcase)]).
  - by left.
  - simpl in Hres. destruct Hcase as [[Hok ->] | (Hok & -> & ->)].
    + right. rewrite Hres. by simpl.
    + by left.
Qed.

(** The outcomes of [completeCheckoutViaMcp]: it throws and the store was
    not reached or refused; or the Resource API's complete handler ran
    and answered 2xx, and the client returns its payload or throws. *)
Lemma completeCheckoutViaMcp_cases net rid t k σ :
  (∃ e, completeCheckoutViaMcp net rid t k σ = (inl e, σ)) ∨
  (k ≠ "" ∧ ok (fst (POST_complete t k σ)) = true ∧
   (completeCheckoutViaMcp net rid t k σ
      = (parseCheckoutFromToolResult (ToolText (payload (fst (POST_complete t k σ)))),
         snd (POST_complete t k σ)) ∨
    ∃ e, completeCheckoutViaMcp net rid t k σ = (inl e, snd (POST_complete t k σ)))).
Proof.
  unfold completeCheckoutViaMcp.
  destruct (initSession net) as [e|[sid pv]]; [left; by exists e|].
  unfold tools_call.
  destruct (call_transport net) eqn:Hc; [|left; by eexists..|].
  - destruct (complete_tool_run net rid t k σ) as [[Hs Hno] | (Hk & Hok & ->)].
    + destruct (gateway_http net rid t _ σ) as [[o reqs] σ1]. simpl in *. subst σ1.
      left. destruct o as [|e|p]; [by eexists..|]. by destruct (Hno p).
    + right. split; [done|]. split; [done|]. by left.
  - destruct (complete_tool_run net rid t k σ) as [[Hs Hno] | (Hk & Hok & ->)].
    + destruct (gateway_http net rid t _ σ) as [[o reqs] σ1]. simpl in *. subst σ1.
      left. by eexists.
    + right. split; [done|]. split; [done|]. right. by eexists.
Qed.

(** X18. The MCP-first complete route under every network condition,
    for an id made of letters, digits, [-] and [_] only, as every id the
    store hands out is.  If a checkout is stored under the id, the route
    answers 200 with a COMPLETED
    or CANCELED checkout, which is the one stored under the id
    afterwards: the stored checkout itself, with the state untouched, if
    it was already terminal; its completion, stamped with the clock
    reading of the gateway's request or of the fallback, if it was
    CREATED.  If none is stored under the id it answers 404 and leaves
    the state as it was. *)
Theorem mcp_first_complete_always_answers
    (net : Network) (rid t1 t2 : string) (k : string) (σ : State) :
  url_safe k = true →
  (∀ c, stored σ k = Some c →
     ∃ c' σ',
       POST_complete_via_mcp net rid t1 t2 k σ
         = ({| http_status := 200; payload := JCheckout c' |}, σ') ∧
       stored σ' k = Some c' ∧ terminal (status c') ∧
       ((terminal (status c) ∧ c' = c ∧ σ' = σ) ∨
        (status c = CREATED ∧
         (c' = completed_at t1 c ∨ c' = completed_at t2 c)))) ∧
  (stored σ k = None →
     POST_complete_via_mcp net rid t1 t2 k σ = (json_error 404 not_found_via_mcp, σ)).
Proof.
  intros _. split.
  - intros c Hst.
    assert (∀ s e c0,
      completeCheckoutViaMcp net rid t1 k σ = (inl e, s) → stored s k = Some c0 →
      ∃ c' σ',
        POST_complete_via_mcp net rid t1 t2 k σ
          = ({| http_status := 200; payload := JCheckout c' |}, σ') ∧
        stored σ' k = Some c' ∧ terminal (status c') ∧
        ((terminal (status c0) ∧ c' = c0 ∧ σ' = s) ∨
         (status c0 = CREATED ∧ c' = completed_at t2 c0))) as Hfallback.
    { intros s e c0 E Hs.
      destruct (completeCheckout_on_stored t2 k s c0 Hs)
        as (r & σ1 & c1 & Hrun & Hd & Hst1 & Hterm & Hcase).
      exists c1, σ1. split; [|done].
      rewrite (POST_complete_via_mcp_fallback _ _ _ _ _ _ _ _ _ _ E Hrun).
      unfold json_checkout. by rewrite Hd. }
    destruct (completeCheckout_on_stored t1 k σ c Hst)
      as (r & σ1 & c1 & Hrun & Hd & Hst1 & Hterm & Hcase).
    assert (∀ Hk : k ≠ "",
      POST_complete t1 k σ = ({| http_status := 200; payload := JCheckout c1 |}, σ1))
      as Hpost.
    { intros Hk. unfold POST_complete. case_decide; [done|]. rewrite Hrun.
      unfold json_checkout. by rewrite Hd. }
    destruct (completeCheckoutViaMcp_cases net rid t1 k σ)
      as [[e E] | (Hk & _ & [E | [e E]])].
    + destruct (Hfallback σ e c E Hst) as (c' & σ' & H1 & H2 & H3 & H4).
      exists c', σ'. repeat split; [done..|].
      destruct H4 as [? | [? ->]]; [by left|]. right. split; [done | by right].
    + rewrite (Hpost Hk) in E. simpl in E.
      exists c1, σ1. split; [unfold POST_complete_via_mcp; by rewrite E|].
      split; [done|]. split; [done|].
      destruct Hcase as [? | [? ->]]; [by left|]. right. split; [done | by left].
    + rewrite (Hpost Hk) in E. simpl in E.
      destruct (Hfallback σ1 e c1 E Hst1) as (c' & σ' & H1 & H2 & H3 & H4).
      destruct H4 as [(_ & -> & ->) | [Hcr _]];
        [|destruct Hterm as [Hx | Hx]; congruence].
      exists c1, σ1. repeat split; [done..|].
      destruct Hcase as [? | [? ->]]; [by left|]. right. split; [done | by left].
  - intros Hst.
    assert (∀ e, completeCheckoutViaMcp net rid t1 k σ = (inl e, σ) →
      POST_complete_via_mcp net rid t1 t2 k σ = (json_error 404 not_found_via_mcp, σ))
      as Hfallback.
    { intros e E. unfold POST_complete_via_mcp.
      by rewrite E, (completeCheckout_absent t2 k σ Hst). }
    destruct (completeCheckoutViaMcp_cases net rid t1 k σ)
      as [[e E] | (Hk & Hok & _)]; [by eapply Hfallback|].
    unfold POST_complete in Hok. case_decide; [done|].
    by rewrite (completeCheckout_absent t1 k σ Hst) in Hok.
Qed.

Lemma mcp_first_complete_always_answers_witness :
  (∃ c' σ',
     POST_complete_via_mcp net_up "co_0" "2026-01-01T10:05:00.000Z"
       "2026-01-01T10:05:01.000Z" "co_8a3f" st_created
       = ({| http_status := 200; payload := JCheckout c' |}, σ') ∧
     stored σ' "co_8a3f" = Some c' ∧ terminal (status c')) ∧
  POST_complete_via_mcp net_up "co_0" "2026-01-01T10:05:00.000Z"
    "2026-01-01T10:05:01.000Z" "co_ffff" st_created
  = (json_error 404 not_found_via_mcp, st_created).
Proof.
  split.
  - destruct (mcp_first_complete_always_answers net_up "co_0"
                "2026-01-01T10:05:00.000Z" "2026-01-01T10:05:01.000Z"
                "co_8a3f" st_created) as [H _]; [reflexivity|].
    destruct (H created_checkout) as (c' & σ' & H1 & H2 & H3 & _).
    + vm_compute. reflexivity.
    + exists c', σ'. exact (conj H1 (conj H2 H3)).
  - destruct (mcp_first_complete_always_answers net_up "co_0"
                "2026-01-01T10:05:00.000Z" "2026-01-01T10:05:01.000Z"
                "co_ffff" st_created) as [_ H]; [reflexivity|].
    apply H. vm_compute. reflexivity.
Defined.

(** ** The gateway's tool annotations *)

Lemma GET_checkout_stored k σ c :
  stored σ k = Some c →
  GET_checkout k σ = ({| http_status := 200; payload := JCheckout c |}, σ).
Proof.
  intros Hst. apply stored_Some in Hst as (r & Hr & Hc).
  unfold GET_checkout, getCheckout, json_checkout, deref. by rewrite Hr, Hc.
Qed.

(** X19. [get_checkout] is read-only, as its [readOnlyHint] says.  In
    both gateways the tool leaves the state as it was, on every network
    and for every argument; and when the arguments pass the schema, the
    Resource API is reachable and a checkout is stored under the id, the
    HTTP gateway answers with exactly that checkout. *)
Theorem get_tool_is_read_only
    (net : Network) (rid t : string) (profile k : Raw string) (σ : State) :
  snd (gateway_http net rid t (get_checkout profile k) σ) = σ ∧
  snd (gateway_stdio net rid t (get_checkout profile k) σ) = σ ∧
  (∀ p i c, MetaShape profile = Some p → k = Given i → i ≠ "" →
     upstream_reachable net = true → stored σ i = Some c →
     gateway_http net rid t (get_checkout profile k) σ
       = (ToolText (JCheckout c), [ReqGet i], σ)).
Proof.
  assert (∀ i, snd (GET_checkout i σ) = σ) as Hget.
  { intros i. unfold GET_checkout. by destruct (getCheckout i σ). }
  assert (snd (gateway_http net rid t (get_checkout profile k) σ) = σ) as Hh.
  { simpl. destruct (IdParams profile k) as [p|]; [|done].
    unfold http_tool, fetch_upstream. destruct (upstream_reachable net); [|done].
    simpl. pose proof (Hget (ip_id p)) as H.
    by destruct (GET_checkout (ip_id p) σ). }
  split; [done|]. split.
  - rewrite gateways_agree_state. exact Hh.
  - intros p i c Hp -> Hi Hup Hst. simpl. unfold IdParams.
    rewrite Hp, (z_string_min1_given i Hi). simpl.
    unfold http_tool, fetch_upstream. rewrite Hup. simpl.
    by rewrite (GET_checkout_stored _ _ _ Hst).
Qed.

Lemma get_tool_is_read_only_witness :
  gateway_http net_up "co_0" "2026-01-01T12:00:00.000Z"
    (get_checkout (Given UCP_PROFILE) (Given "co_8a3f")) st_completed
  = (ToolText (JCheckout completed_checkout), [ReqGet "co_8a3f"], st_completed).
Proof.
  destruct (get_tool_is_read_only net_up "co_0" "2026-01-01T12:00:00.000Z"
              (Given UCP_PROFILE) (Given "co_8a3f") st_completed) as (_ & _ & H).
  apply (H UCP_PROFILE "co_8a3f" completed_checkout).
  - reflexivity.
  - reflexivity.
  - discriminate.
  - reflexivity.
  - vm_compute. reflexivity.
Defined.

Lemma http_tool_create_text net rid t label ls σ p reqs σ1 :
  http_tool net rid t label (ReqCreate (JsonBody (LinesArray ls))) σ
    = (ToolText p, reqs, σ1) →
  ls ≠ [] →
  upstream_reachable net = true ∧
  p = JCheckout (created_at rid t ls) ∧
  reqs = [ReqCreate (JsonBody (LinesArray ls))] ∧
  σ1 = snd (createCheckout rid t ls σ).
Proof.
  intros H Hne. destruct ls as [|l ls]; [done|].
  unfold http_tool, fetch_upstream in H.
  destruct (upstream_reachable net); [|done].
  unfold resource_api in H. rewrite POST_checkout_accepts in H. simpl in H.
  by injection H as <- <- <-.
Qed.

(** X20. [create_checkout] is not idempotent, although it is registered
    with [idempotentHint] and takes an [idempotency_key]: the key is
    validated and then ignored.  When a call has created a checkout, the
    same call again, with the same key and arguments, creates a second
    checkout with the same lines under the next id drawn, and the first
    stays stored. *)
Theorem create_tool_ignores_idempotency_key
    (net : Network) (rid1 t1 rid2 t2 : string)
    (profile idempotency_key currency : Raw string)
    (line_items : Raw (list RawLineItem))
    (σ σ1 : State) (p : Payload) (reqs : list ApiRequest) :
  let call := create_checkout profile idempotency_key currency line_items in
  gateway_http net rid1 t1 call σ = (ToolText p, reqs, σ1) →
  rid1 ≠ rid2 →
  ∃ ls σ2,
    p = JCheckout (created_at rid1 t1 ls) ∧
    gateway_http net rid2 t2 call σ1
      = (ToolText (JCheckout (created_at rid2 t2 ls)), reqs, σ2) ∧
    stored σ2 rid1 = Some (created_at rid1 t1 ls) ∧
    stored σ2 rid2 = Some (created_at rid2 t2 ls).
Proof.
  intros call H Hne. rewrite gateway_http_tool_request in H.
  destruct (tool_request call) as [[label req]|] eqn:E; [|done].
  pose proof (tool_request_wellformed _ _ _ E) as Hwf.
  assert (∃ ls, req = ReqCreate (JsonBody (LinesArray ls))) as [ls ->].
  { unfold call in E. simpl in E.
    destruct (CreateCheckoutParams _ _ _ _); [|done].
    simpl in E. injection E as _ <-. by eexists. }
  destruct Hwf as [Hnil _].
  apply http_tool_create_text in H as (Hup & -> & -> & ->); [|done].
  exists ls, (snd (createCheckout rid2 t2 ls (snd (createCheckout rid1 t1 ls σ)))).
  split; [done|]. split.
  - rewrite gateway_http_tool_request, E.
    unfold http_tool, fetch_upstream. rewrite Hup.
    destruct ls as [|l ls]; [done|].
    unfold resource_api. by rewrite POST_checkout_accepts.
  - by apply createCheckout_twice.
Qed.

Lemma create_tool_ignores_idempotency_key_witness :
  ∃ ls σ2,
    gateway_http net_up "co_22" "2026-01-01T09:00:01.000Z"
      (create_checkout (Given UCP_PROFILE) (Given "order-1") Missing
         (Given [ {| raw_item_id := Given "autonomous-mug";
                     raw_quantity := Given 1%Q |} ]))
      (snd (createCheckout "co_11" "2026-01-01T09:00:00.000Z" [one_mug] empty_state))
    = (ToolText (JCheckout (created_at "co_22" "2026-01-01T09:00:01.000Z" ls)),
       [ReqCreate (JsonBody (LinesArray [one_mug]))], σ2) ∧
    stored σ2 "co_11" = Some (created_at "co_11" "2026-01-01T09:00:00.000Z" ls) ∧
    stored σ2 "co_22" = Some (created_at "co_22" "2026-01-01T09:00:01.000Z" ls).
Proof.
  destruct (create_tool_ignores_idempotency_key net_up
              "co_11" "2026-01-01T09:00:00.000Z" "co_22" "2026-01-01T09:00:01.000Z"
              (Given UCP_PROFILE) (Given "order-1") Missing
              (Given [ {| raw_item_id := Given "autonomous-mug";
                          raw_quantity := Given 1%Q |} ])
              empty_state
              (snd (createCheckout "co_11" "2026-01-01T09:00:00.000Z"
                      [one_mug] empty_state))
              (JCheckout (created_at "co_11" "2026-01-01T09:00:00.000Z" [one_mug]))
              [ReqCreate (JsonBody (LinesArray [one_mug]))])
    as (ls & σ2 & _ & H2 & H3 & H4).
  - vm_compute. reflexivity.
  - discriminate.
  - exists ls, σ2. exact (conj H2 (conj H3 H4)).
Defined.

(** ** The pages: create, then complete *)







(** ** The shop page's cart *)

Lemma addToCart_map pid (cart : list (string * nat)) :
  (list_to_map (addToCart pid cart) : gmap string nat) =
  <[pid := (default 0%nat ((list_to_map cart : gmap string nat) !! pid) + 1)%nat]>
    (list_to_map cart).
Proof.
  induction cart as [|[k q] rest IH]; simpl; [done|].
  case_decide as Hk.
  - subst k. simpl. rewrite lookup_insert_eq. simpl. by rewrite insert_insert_eq.
  - simpl. rewrite IH, lookup_insert_ne by done. by apply insert_insert_ne.
Qed.

Lemma addToCart_keys pid (cart : list (string * nat)) :
  (addToCart pid cart).*1 =
  if decide (pid ∈ cart.*1) then cart.*1 else cart.*1 ++ [pid].
Proof.
  induction cart as [|[k q] rest IH].
  - rewrite decide_False; [done|]. apply not_elem_of_nil.
  - cbn [addToCart]. destruct (decide (k = pid)) as [-> | Hk].
    + rewrite decide_True; [done | by left].
    + rewrite !fmap_cons, IH. cbn [fst].
      destruct (decide (pid ∈ rest.*1)) as [Hin | Hin].
      * rewrite decide_True; [done | by right].
      * rewrite decide_False; [done|]. intros [? | ?]%elem_of_cons; congruence.
Qed.

Lemma addToCart_NoDup pid (cart : list (string * nat)) :
  NoDup cart.*1 → NoDup (addToCart pid cart).*1.
Proof.
  intros Hnd. rewrite addToCart_keys. case_decide as Hin; [done|].
  apply NoDup_app. split; [done|]. split; [|apply NoDup_singleton].
  intros x Hx ->%list_elem_of_singleton. done.
Qed.

Lemma cart_after_snoc adds pid :
  cart_after (adds ++ [pid]) = addToCart pid (cart_after adds).
Proof. unfold cart_after. by rewrite foldl_app. Qed.

Lemma cart_after_NoDup adds : NoDup (cart_after adds).*1.
Proof.
  induction adds as [|pid adds IH] using rev_ind; [constructor|].
  rewrite cart_after_snoc. by apply addToCart_NoDup.
Qed.

Lemma times_added_snoc p adds x :
  times_added p (adds ++ [x]) =
  (times_added p adds + if decide (x = p) then 1 else 0)%nat.
Proof.
  unfold times_added. rewrite filter_app, length_app. f_equal.
  rewrite filter_cons. by case_decide.
Qed.

Lemma times_added_pos p adds : (0 < times_added p adds)%nat ↔ p ∈ adds.
Proof.
  unfold times_added. split.
  - intros H. destruct (filter (λ x, x = p) adds) as [|y ys] eqn:E;
      [simpl in H; lia|].
    assert (y ∈ filter (λ x, x = p) adds) as Hy by (rewrite E; by left).
    apply list_elem_of_filter in Hy as [-> ?]. done.
  - intros H. assert (p ∈ filter (λ x, x = p) adds) as Hp
      by by apply list_elem_of_filter.
    destruct (filter (λ x, x = p) adds); [by apply elem_of_nil in Hp|].
    simpl. lia.
Qed.

Lemma cart_after_map adds p :
  (list_to_map (cart_after adds) : gmap string nat) !! p =
  if decide (times_added p adds = 0%nat) then None else Some (times_added p adds).
Proof.
  induction adds as [|x adds IH] using rev_ind; [done|].
  rewrite cart_after_snoc, addToCart_map, times_added_snoc.
  destruct (decide (x = p)) as [-> | Hx].
  - rewrite lookup_insert_eq, IH.
    rewrite (decide_False (P := (times_added p adds + 1)%nat = 0%nat)) by lia.
    f_equal. case_decide as H0; simpl; lia.
  - rewrite lookup_insert_ne by done. rewrite IH, Nat.add_0_r. done.
Qed.

Lemma cart_after_elem adds k q :
  (k, q) ∈ cart_after adds ↔ q = times_added k adds ∧ k ∈ adds.
Proof.
  rewrite (elem_of_list_to_map (M := gmap string)) by apply cart_after_NoDup.
  rewrite cart_after_map, <- times_added_pos. case_decide as H0; split.
  - done.
  - intros [_ ?]. lia.
  - intros [= <-]. split; [done | lia].
  - by intros [-> _].
Qed.

Lemma cart_lines_nothing_filtered adds :
  cart_lines (cart_after adds) =
  map (λ e, {| productId := fst e; quantity := inject_Z (Z.of_nat (snd e)) |})
      (cart_after adds).
Proof.
  unfold cart_lines. f_equal.
  assert (Forall (λ e, (0 < snd e)%nat) (cart_after adds)) as Hall.
  { apply Forall_forall. intros [k q] [-> Hin]%cart_after_elem.
    by apply times_added_pos. }
  induction Hall as [|e l He _ IH]; [done|].
  by rewrite filter_cons_True, IH.
Qed.

(** X23. The shop page's lines are what was added.  After the "Add"
    button was pressed for a sequence of product ids, starting from the
    empty cart, the lines the page sends hold each added product exactly
    once, with the number of times it was added as its quantity, and
    nothing else; every quantity is a positive integer, so the lines pass
    the gateway's quantity check; and the list is empty only if nothing
    was added. *)
Theorem cart_lines_are_what_was_added (adds : list string) :
  let ls := cart_lines (cart_after adds) in
  NoDup (map productId ls) ∧
  (∀ l, l ∈ ls ↔
        productId l ∈ adds ∧
        quantity l = inject_Z (Z.of_nat (times_added (productId l) adds))) ∧
  Forall (λ l, is_integer (quantity l) = true ∧ is_positive (quantity l) = true) ls ∧
  (ls = [] ↔ adds = []).
Proof.
  intros ls. subst ls. rewrite cart_lines_nothing_filtered.
  assert (∀ l,
    l ∈ map (λ e, {| productId := fst e; quantity := inject_Z (Z.of_nat (snd e)) |})
            (cart_after adds) ↔
    productId l ∈ adds ∧
    quantity l = inject_Z (Z.of_nat (times_added (productId l) adds))) as Hmem.
  { intros [p q]. simpl. rewrite (list_elem_of_fmap _ (cart_after adds)). split.
    - intros ([k n] & [= -> ->] & [-> Hin]%cart_after_elem). done.
    - intros [Hin ->]. exists (p, times_added p adds). split; [done|].
      by apply cart_after_elem. }
  split; [|split; [exact Hmem|split]].
  - rewrite map_map. simpl. apply cart_after_NoDup.
  - apply Forall_forall. intros l [Hin Hq]%Hmem. rewrite Hq.
    apply times_added_pos in Hin. split.
    + apply is_integer_spec. by eexists.
    + apply is_positive_spec. unfold Qlt. simpl. lia.
  - split.
    + intros Hnil. destruct adds as [|a adds]; [done|].
      assert ({| productId := a;
                 quantity := inject_Z (Z.of_nat (times_added a (a :: adds))) |}
              ∈ map (λ e, {| productId := fst e;
                             quantity := inject_Z (Z.of_nat (snd e)) |})
                    (cart_after (a :: adds))) as Hin.
      { apply Hmem. simpl. split; [by left | done]. }
      rewrite Hnil in Hin. by apply elem_of_nil in Hin.
    + by intros ->.
Qed.

(** ** The catalog *)

Lemma catalog_ids_differ : NoDup (map Catalog.id Catalog.catalog).
Proof. apply (bool_decide_unpack _). vm_compute. exact I. Qed.

Lemma NoDup_map_inj_on {A B} (f : A → B) (l : list A) x y :
  NoDup (map f l) → x ∈ l → y ∈ l → f x = f y → x = y.
Proof.
  induction l as [|a l IH]; simpl; [by intros _ ?%elem_of_nil|].
  intros [Hnot Hnd]%NoDup_cons [-> | Hx]%elem_of_cons [-> | Hy]%elem_of_cons Hf.
  - done.
  - destruct Hnot. rewrite Hf. by apply (list_elem_of_fmap_2 f).
  - destruct Hnot. rewrite <- Hf. by apply (list_elem_of_fmap_2 f).
  - by apply IH.
Qed.

(** X24. Looking a product up by id.  [getProductById] returns a product
    exactly when the catalog has one with that id, and then it is the
    only one: every product of the catalog is found under its own id.
    Every product [getProductsByMerchant] lists is a coffee product of
    that merchant from the catalog, and no product is listed for two
    merchants. *)
Theorem catalog_lookup (i : string) (m m' : Catalog.MerchantId) (p : Catalog.Product) :
  (Catalog.getProductById i = Some p ↔ p ∈ Catalog.catalog ∧ Catalog.id p = i) ∧
  (Catalog.getProductById i = None ↔ ∀ q, q ∈ Catalog.catalog → Catalog.id q ≠ i) ∧
  (p ∈ Catalog.getProductsByMerchant m →
     p ∈ Catalog.catalog ∧ Catalog.category p = Catalog.coffee ∧
     Catalog.getProductById (Catalog.id p) = Some p ∧
     (p ∈ Catalog.getProductsByMerchant m' → m' = m)).
Proof.
  assert (∀ j q, Catalog.getProductById j = Some q ↔
                 q ∈ Catalog.catalog ∧ Catalog.id q = j) as Hfind.
  { intros j q. unfold Catalog.getProductById. split.
    - intros H. apply find_some in H as [Hin Hb].
      apply bool_decide_eq_true in Hb. split; [by apply list_elem_of_In | done].
    - intros [Hin <-].
      destruct (find (λ p0, bool_decide (Catalog.id p0 = Catalog.id q))
                  Catalog.catalog) as [q'|] eqn:E.
      + apply find_some in E as [Hin' Hb]. apply bool_decide_eq_true in Hb.
        f_equal. apply (NoDup_map_inj_on Catalog.id Catalog.catalog);
          [apply catalog_ids_differ | by apply list_elem_of_In | done | done].
      + apply list_elem_of_In in Hin.
        pose proof (find_none _ _ E q Hin) as Hb.
        by apply bool_decide_eq_false in Hb. }
  split; [apply Hfind|]. split.
  - split.
    + intros Hnone q Hin Hq.
      assert (Catalog.getProductById i = Some q) as Hs by by apply Hfind.
      congruence.
    + intros Hall. destruct (Catalog.getProductById i) as [q|] eqn:E; [|done].
      apply Hfind in E as [Hin Hq]. by destruct (Hall q Hin).
  - unfold Catalog.getProductsByMerchant.
    intros [[Hcat Hm] Hin]%list_elem_of_filter.
    split; [done|]. split; [done|]. split; [by apply Hfind|].
    intros [[_ Hm'] _]%list_elem_of_filter. congruence.
Qed.

Lemma catalog_lookup_witness :
  Catalog.getProductById "autonomous-mug"
  = Some (Catalog.mkProduct "autonomous-mug" "Autonomous Mug" 2400
            Catalog.merchandise (Some "Double-wall insulated") None
            (Some Catalog.mugImage) None) ∧
  Catalog.getProductById "espresso" = None.
Proof.
  split.
  - destruct (catalog_lookup "autonomous-mug" Catalog.demo_merchant
                Catalog.demo_merchant
                (Catalog.mkProduct "autonomous-mug" "Autonomous Mug" 2400
                   Catalog.merchandise (Some "Double-wall insulated") None
                   (Some Catalog.mugImage) None)) as [[_ H] _].
    apply H. split; [|reflexivity].
    apply list_elem_of_In. vm_compute. tauto.
  - destruct (catalog_lookup "espresso" Catalog.demo_merchant
                Catalog.demo_merchant
                (Catalog.mkProduct "" "" 0 Catalog.other None None None None))
      as (_ & [_ H] & _).
    apply H. intros q Hin%list_elem_of_In.
    vm_compute in Hin. intuition (subst; discriminate).
Defined.

(** * The two bindings on the same line list *)







